(** * fine-bot: the portal scrapper ([scrapper.py])

    A shallow embedding of class [Scrapper]: the session probe, the
    authentication negotiation, the row extractor and the media extractor,
    with the properties of its specification stated against the embedding.

    Conventions.
    - A Python [str] is a sequence of Unicode code points ([pystr]); a
      [bytes] value is a list of bytes.
    - A Python exception is a value of [exn]; a call that may raise returns a
      [result].
    - Code that talks to the portal, the cookie jar, the configuration object
      or the logger runs in the state-and-exception monad [M]: the state is
      kept when an exception is raised, as in Python.
    - A [float] is an IEEE 754 binary64 value, given by [spec_float] with
      precision 53 and [emax = 1024].
    - The parsed markup is a tree of element and text nodes ([node]); the
      HTML parser and the serialiser of BeautifulSoup, the HTTP transport and
      the CAPTCHA oracle are external and taken as parameters. *)

From Stdlib Require Import Ascii String.
From Stdlib Require Import ZArith NArith List Bool Lia.
From Stdlib Require Import SpecFloat.
Import ListNotations.

Local Open Scope Z_scope.

(* ------------------------------------------------------------------------- *)
(** ** Python strings *)

Module PyStr.

(** A [str] is a sequence of code points. *)
Definition pystr := list N.

(** An ASCII literal of the source, as a [pystr]. *)
Definition lit (s : String.string) : pystr :=
  map Ascii.N_of_ascii (String.list_ascii_of_string s).
Arguments lit s%_string.

Fixpoint eqb (a b : pystr) : bool :=
  match a, b with
  | [], [] => true
  | x :: a', y :: b' => N.eqb x y && eqb a' b'
  | _, _ => false
  end.

(** [s.startswith(p)] *)
Fixpoint starts_with (p s : pystr) : bool :=
  match p, s with
  | [], _ => true
  | x :: p', y :: s' => N.eqb x y && starts_with p' s'
  | _ :: _, [] => false
  end.

(** [s.find(p) != -1] *)
Fixpoint contains (p s : pystr) : bool :=
  starts_with p s ||
  match s with
  | [] => false
  | _ :: s' => contains p s'
  end.

(** [s[:-k]] for a positive [k]: all but the last [k] code points, the empty
    string when [s] has at most [k]. *)
Definition drop_last (k : nat) (s : pystr) : pystr :=
  firstn (length s - k) s.

End PyStr.
Import PyStr.

(* ------------------------------------------------------------------------- *)
(** ** Exceptions *)

(** The exceptions the scrapper can raise or let through. *)
Inductive exn : Type :=
| AttributeError   (* attribute access on None *)
| IndexError       (* list index out of range *)
| KeyError         (* missing attribute of a tag *)
| TypeError        (* subscript of None; slice of a tag *)
| ValueError       (* float(), strptime(), math.ceil(nan) *)
| OverflowError    (* math.ceil(inf) *)
| TransportError   (* raised by the HTTP transport *)
| AuthException    (* Exception("Unable to authenticate. ...") *)
| CookieConflictError.   (* two cookies of the jar carry the name asked for *)

Inductive result (A : Type) : Type :=
| Ok (a : A)
| Raise (e : exn).
Arguments Ok {A} a.
Arguments Raise {A} e.

Definition rbind {A B} (r : result A) (k : A -> result B) : result B :=
  match r with
  | Ok a => k a
  | Raise e => Raise e
  end.

(** [l[i]] *)
Definition index {A} (l : list A) (i : nat) : result A :=
  match nth_error l i with
  | Some a => Ok a
  | None => Raise IndexError
  end.

Definition on_some {A} (e : exn) (o : option A) : result A :=
  match o with
  | Some a => Ok a
  | None => Raise e
  end.

(* ------------------------------------------------------------------------- *)
(** ** Characters: the tables of CPython the program reaches through
       [float()] and [strptime] *)

Module PyChar.

Definition between (lo hi c : N) : bool := (N.leb lo c && N.leb c hi)%bool.

(** ['0' <= c <= '9'] *)
Definition is_digit (c : N) : bool := between 48 57 c.

(** [Py_ISSPACE]: space, [\t], [\n], [\v], [\f], [\r]. *)
Definition c_isspace (c : N) : bool := (N.eqb c 32 || between 9 13 c)%bool.

(** [Py_UNICODE_ISSPACE]. *)
Definition unicode_isspace (c : N) : bool :=
  (between 9 13 c || between 28 32 c || N.eqb c 133 || N.eqb c 160 ||
   N.eqb c 5760 || between 8192 8202 c || between 8232 8233 c ||
   N.eqb c 8239 || N.eqb c 8287 || N.eqb c 12288)%bool.

(** The code points of the digit zero of every run of decimal digits
    (general category Nd) of the Unicode database, version 14.0; each run
    holds the ten digits in order. *)
Definition decimal_zeros : list N :=
  [48; 1632; 1776; 1984; 2406; 2534; 2662; 2790; 2918; 3046; 3174; 3302;
   3430; 3558; 3664; 3792; 3872; 4160; 4240; 6112; 6160; 6470; 6608; 6784;
   6800; 6992; 7088; 7232; 7248; 42528; 43216; 43264; 43472; 43504; 43600;
   44016; 65296; 66720; 68912; 69734; 69872; 69942; 70096; 70384; 70736;
   70864; 71248; 71360; 71472; 71904; 72016; 72784; 73040; 73120; 92768;
   92864; 93008; 120782; 120792; 120802; 120812; 120822; 123200; 123632;
   125264; 130032]%N.

(** [Py_UNICODE_TODECIMAL]: the value of a decimal digit, [None] for any
    other character. *)
Definition unicode_decimal (c : N) : option N :=
  match find (fun z => between z (z + 9) c) decimal_zeros with
  | Some z => Some (c - z)%N
  | None => None
  end.

(** [Py_TOLOWER] *)
Definition to_lower (c : N) : N := if between 65 90 c then (c + 32)%N else c.

End PyChar.
Import PyChar.

(* ------------------------------------------------------------------------- *)
(** ** Floats: [float(str)], [float * int], [math.ceil] *)

Module PyFloat.

Definition prec : Z := 53.
Definition emax : Z := 1024.

(** A Python [float]. *)
Definition float := spec_float.

(** [float(n)] for an [int] of magnitude below [2**1024]: the nearest
    binary64 value, ties to even. *)
Definition of_int (n : Z) : float := binary_normalize prec emax n 0 false.

(** [x * y] on floats. *)
Definition mul (x y : float) : float := SFmul prec emax x y.

(** The binary64 value nearest to [(-1)^neg * d * 10^e], ties to even: the
    result of the correctly rounded decimal-to-binary conversion of
    [_Py_dg_strtod].  Overflow gives an infinity, underflow a subnormal or a
    zero. *)
Definition of_decimal (neg : bool) (d : Z) (e : Z) : float :=
  match d with
  | Zpos m =>
      if 0 <=? e then binary_round prec emax neg (m * Z.to_pos (10 ^ e)) 0
      else SFdiv prec emax (S754_finite neg m 0)
                           (S754_finite false (Z.to_pos (10 ^ (- e))) 0)
  | _ => S754_zero neg
  end.

(** [math.ceil(x)]: an [int]; [OverflowError] on an infinity, [ValueError]
    on a NaN. *)
Definition ceil (x : float) : result Z :=
  match x with
  | S754_zero _ => Ok 0
  | S754_infinity _ => Raise OverflowError
  | S754_nan => Raise ValueError
  | S754_finite s m e =>
      let n := if s then Zneg m else Zpos m in
      Ok (if 0 <=? e then n * 2 ^ e else - ((- n) / 2 ^ (- e)))
  end.

(** *** [float(s)] for a [str]

    [PyFloat_FromString]: the string is first brought to ASCII
    ([_PyUnicode_TransformDecimalAndSpaceToASCII]), underscores between
    digits are removed ([_Py_string_to_number_with_underscores]), white space
    is stripped at both ends and the rest must be, as a whole, a decimal
    number or an infinity or a NaN ([float_from_string_inner],
    [_PyOS_ascii_strtod]). *)

Fixpoint transform_loop (s : pystr) : pystr :=
  match s with
  | [] => []
  | c :: s' =>
      if N.ltb c 127 then c :: transform_loop s'
      else if unicode_isspace c then 32%N :: transform_loop s'
      else match unicode_decimal c with
           | Some d => (48 + d)%N :: transform_loop s'
           | None => [63%N]
           end
  end.

Definition transform (s : pystr) : pystr :=
  if forallb (fun c => N.ltb c 128) s then s else transform_loop s.

(** The copy loop that drops underscores: one is allowed only between two
    digits.  [prev] is the previous character, [0] at the start. *)
Fixpoint drop_underscores (prev : N) (s : pystr) : option pystr :=
  match s with
  | [] => if N.eqb prev 95 then None else Some []
  | c :: s' =>
      if N.eqb c 95 then
        if is_digit prev then drop_underscores c s' else None
      else if (N.eqb prev 95 && negb (is_digit c))%bool then None
      else option_map (cons c) (drop_underscores c s')
  end.

Definition without_underscores (s : pystr) : option pystr :=
  if existsb (N.eqb 95) s then drop_underscores 0 s else Some s.

Fixpoint lstrip (s : pystr) : pystr :=
  match s with
  | c :: s' => if c_isspace c then lstrip s' else s
  | [] => []
  end.

Definition strip (s : pystr) : pystr := rev (lstrip (rev (lstrip s))).

(** An optional sign. *)
Definition take_sign (s : pystr) : bool * pystr :=
  match s with
  | 45%N :: r => (true, r)
  | 43%N :: r => (false, r)
  | _ => (false, s)
  end.

(** The longest run of ASCII digits at the head of [s]: the number they
    spell after [acc], how many they are, and the rest. *)
Fixpoint take_digits (acc : Z) (n : Z) (s : pystr) : Z * Z * pystr :=
  match s with
  | c :: s' =>
      if is_digit c then take_digits (10 * acc + (Z.of_N c - 48)) (n + 1) s'
      else (acc, n, s)
  | [] => (acc, n, s)
  end.

(** The exponent part [e[+-]digits]; with no digit after the [e] nothing is
    consumed. *)
Definition take_exponent (s : pystr) : Z * pystr :=
  match s with
  | c :: r =>
      if (N.eqb c 101 || N.eqb c 69)%bool then
        let '(neg, r1) := take_sign r in
        let '(v, n, r2) := take_digits 0 0 r1 in
        if n =? 0 then (0, s) else ((if neg then - v else v), r2)
      else (0, s)
  | [] => (0, s)
  end.

(** [_Py_dg_strtod]: sign, digits with an optional point (one digit at
    least), optional exponent.  [None] when no number starts [s]. *)
Definition parse_number (s : pystr) : option (float * pystr) :=
  let '(neg, s1) := take_sign s in
  let '(ip, n_int, s2) := take_digits 0 0 s1 in
  let '(d, n_all, s3) :=
    match s2 with
    | 46%N :: r => take_digits ip n_int r
    | _ => (ip, n_int, s2)
    end in
  if n_all =? 0 then None
  else
    let '(e, s4) := take_exponent s3 in
    Some (of_decimal neg d (e - (n_all - n_int)), s4).

(** [case_insensitive_match]: [t] is in lower case. *)
Fixpoint ci_match (t s : pystr) : option pystr :=
  match t, s with
  | [], _ => Some s
  | x :: t', y :: s' => if N.eqb (to_lower y) x then ci_match t' s' else None
  | _ :: _, [] => None
  end.

(** [_Py_parse_inf_or_nan] *)
Definition parse_inf_or_nan (s : pystr) : option (float * pystr) :=
  let '(neg, s1) := take_sign s in
  match ci_match (lit "inf") s1 with
  | Some r =>
      match ci_match (lit "inity") r with
      | Some r' => Some (S754_infinity neg, r')
      | None => Some (S754_infinity neg, r)
      end
  | None =>
      match ci_match (lit "nan") s1 with
      | Some r => Some (S754_nan, r)
      | None => None
      end
  end.

(** [float(s)] *)
Definition of_str (s : pystr) : result float :=
  match without_underscores (transform s) with
  | None => Raise ValueError
  | Some s1 =>
      let s2 := strip s1 in
      match parse_number s2 with
      | Some (x, []) => Ok x
      | Some (_, _ :: _) => Raise ValueError
      | None =>
          match parse_inf_or_nan s2 with
          | Some (x, []) => Ok x
          | _ => Raise ValueError
          end
      end
  end.

End PyFloat.

(* ------------------------------------------------------------------------- *)
(** ** Dates: [datetime.datetime.strptime(s, "%d.%m.%Y").date()] *)

Module PyDate.

(** A [datetime.date]. *)
Record pydate : Type := mkdate { year : Z; month : Z; day : Z }.

Definition is_leap (y : Z) : bool :=
  ((y mod 4 =? 0) && (negb (y mod 100 =? 0) || (y mod 400 =? 0)))%bool.

Definition days_in_month (y m : Z) : Z :=
  if m =? 2 then (if is_leap y then 29 else 28)
  else if ((m =? 4) || (m =? 6) || (m =? 9) || (m =? 11))%bool then 30
  else 31.

(** [datetime.date(y, m, d)]: [ValueError] outside the calendar. *)
Definition make_date (y m d : Z) : result pydate :=
  if ((1 <=? y) && (y <=? 9999) && (1 <=? m) && (m <=? 12) &&
      (1 <=? d) && (d <=? days_in_month y m))%bool
  then Ok (mkdate y m d)
  else Raise ValueError.

Definition dv (c : N) : Z := Z.of_N c - 48.

(** The matches of a directive at the head of [s], in the order in which the
    regular expression tries its alternatives: each is the number read and
    the rest of the string. *)

(** [%d]: [3[0-1]|[1-2]\d|0[1-9]|[1-9]| [1-9]]; [\d] is any decimal digit of
    Unicode. *)
Definition day_alternatives (s : pystr) : list (Z * pystr) :=
  match s with
  | a :: b :: r =>
      (if (N.eqb a 51 && between 48 49 b)%bool then [(30 + dv b, r)] else []) ++
      (if between 49 50 a then
         match unicode_decimal b with
         | Some v => [(10 * dv a + Z.of_N v, r)]
         | None => []
         end
       else []) ++
      (if (N.eqb a 48 && between 49 57 b)%bool then [(dv b, r)] else []) ++
      (if between 49 57 a then [(dv a, b :: r)] else []) ++
      (if (N.eqb a 32 && between 49 57 b)%bool then [(dv b, r)] else [])
  | [a] => if between 49 57 a then [(dv a, [])] else []
  | [] => []
  end.

(** [%m]: [1[0-2]|0[1-9]|[1-9]] *)
Definition month_alternatives (s : pystr) : list (Z * pystr) :=
  match s with
  | a :: b :: r =>
      (if (N.eqb a 49 && between 48 50 b)%bool then [(10 + dv b, r)] else []) ++
      (if (N.eqb a 48 && between 49 57 b)%bool then [(dv b, r)] else []) ++
      (if between 49 57 a then [(dv a, b :: r)] else [])
  | [a] => if between 49 57 a then [(dv a, [])] else []
  | [] => []
  end.

(** [%Y]: [\d\d\d\d], read by [int()]. *)
Definition year_alternatives (s : pystr) : list (Z * pystr) :=
  match s with
  | a :: b :: c :: d :: r =>
      match unicode_decimal a, unicode_decimal b,
            unicode_decimal c, unicode_decimal d with
      | Some x, Some y, Some z, Some w =>
          [(1000 * Z.of_N x + 100 * Z.of_N y + 10 * Z.of_N z + Z.of_N w, r)]
      | _, _, _, _ => []
      end
  | _ => []
  end.

(** The literal [\.] of the format. *)
Definition dot (s : pystr) : list pystr :=
  match s with
  | 46%N :: r => [r]
  | _ => []
  end.

(** All the matches of the whole pattern at the head of [s], first match
    first: day, month, year and what is left of [s]. *)
Definition pattern_matches (s : pystr) : list (Z * Z * Z * pystr) :=
  flat_map (fun '(d, s1) =>
    flat_map (fun s2 =>
      flat_map (fun '(m, s3) =>
        flat_map (fun s4 =>
          map (fun '(y, s5) => (d, m, y, s5)) (year_alternatives s4))
          (dot s3))
        (month_alternatives s2))
      (dot s1))
    (day_alternatives s).

(** [strptime(s, "%d.%m.%Y").date()]: [re.match] takes the first match; data
    left behind it, or no match, is a [ValueError]. *)
Definition strptime_dmY (s : pystr) : result pydate :=
  match pattern_matches s with
  | (d, m, y, []) :: _ => make_date y m d
  | _ => Raise ValueError
  end.

End PyDate.
Import PyDate.

(* ------------------------------------------------------------------------- *)
(** ** Markup: the tree BeautifulSoup builds *)

Module Soup.

(** An element or a text node.  An element carries its name, its attributes
    and its children; the value of the [class] attribute, which BeautifulSoup
    keeps as the list of its white-space separated tokens, is held apart
    from the single-valued attributes ([id], [name], [href], [src], [value]
    and the rest).  A text node is a plain [NavigableString]; the strings of
    the other classes of BeautifulSoup (comments, CDATA sections, the
    strings it sets apart below a [script], [style] or [template] element),
    which [.text] treats differently, are not part of the tree. *)
#[warnings="-register-all"]
Inductive node : Type :=
| Text (s : pystr)
| Tag (name : pystr) (attrs : list (pystr * pystr)) (classes : list pystr)
      (children : list node).

(** [isinstance(x, str)] *)
Definition is_str (n : node) : bool :=
  match n with
  | Text _ => true
  | Tag _ _ _ _ => false
  end.

(** [tag.contents] *)
Definition children (n : node) : list node :=
  match n with
  | Text _ => []
  | Tag _ _ _ cs => cs
  end.

(** [tag.descendants]: every node below [n], in document order. *)
Fixpoint descendants (n : node) : list node :=
  match n with
  | Text _ => []
  | Tag _ _ _ cs => flat_map (fun c => c :: descendants c) cs
  end.

Definition own_text (n : node) : pystr :=
  match n with
  | Text s => s
  | Tag _ _ _ _ => []
  end.

(** [x.text]: a string is its own text, an element has the texts below it
    joined. *)
Definition text (n : node) : pystr :=
  match n with
  | Text s => s
  | Tag _ _ _ _ => concat (map own_text (descendants n))
  end.

(** [tag[key]]: [KeyError] when the element has no such attribute; a
    subscript of a string by a name is a [TypeError]. *)
Definition attr (key : pystr) (n : node) : result pystr :=
  match n with
  | Text _ => Raise TypeError
  | Tag _ attrs _ _ =>
      match find (fun kv => PyStr.eqb (fst kv) key) attrs with
      | Some kv => Ok (snd kv)
      | None => Raise KeyError
      end
  end.

(** [' '.join(l)] *)
Fixpoint join_space (l : list pystr) : pystr :=
  match l with
  | [] => []
  | [x] => x
  | x :: l' => x ++ 32%N :: join_space l'
  end.

Definition named (nm : pystr) (n : node) : bool :=
  match n with
  | Text _ => false
  | Tag name _ _ _ => PyStr.eqb name nm
  end.

(** The filter [{"class": w}], and [{"class": [w1, w2]}] with several
    values: one of the tokens of the element's class is one of the values,
    or the whole class is. *)
Definition has_class (want : list pystr) (n : node) : bool :=
  match n with
  | Text _ => false
  | Tag _ _ cls _ =>
      existsb (fun w => existsb (PyStr.eqb w) cls
                        || PyStr.eqb (join_space cls) w)%bool want
  end.

(** The filter [{key: v}] on a single-valued attribute. *)
Definition has_attr (key v : pystr) (n : node) : bool :=
  match attr key n with
  | Ok x => PyStr.eqb x v
  | Raise _ => false
  end.

(** [tag.find_all(...)] with a filter [p] *)
Definition find_all (p : node -> bool) (n : node) : list node :=
  filter p (descendants n).

(** [tag.find(...)]: the first match in document order, or [None]. *)
Definition find (p : node -> bool) (n : node) : option node :=
  List.find p (descendants n).

(** [tag.find_all(..., recursive=False)] *)
Definition find_all_children (p : node -> bool) (n : node) : list node :=
  filter p (children n).

End Soup.
Import Soup.

(* ------------------------------------------------------------------------- *)
(** ** The records of [models.py] *)

Definition bytes := list Byte.byte.

Inductive ProtocolStatus : Type := PAID_ON_TIME | UNPAID | UNKNOWN.

Inductive MediaType : Type := PNG | OGG.

Record Media : Type := mkMedia { blob : bytes; type : MediaType }.

(** Modelled from the spec: [models.py] is not among the sources, and the
    value of [Protocol.media] when the constructor is not given one is fixed
    there.  The specification has a Protocol created with "an ordered
    sequence of zero or more Media items attached after creation": a new
    Protocol has no media. *)
Definition default_media : list Media := [].

Record Protocol : Type := mkProtocol {
  protocol_number : pystr;
  car_state_number : pystr;
  date : pydate;
  violation_code : pystr;
  amount : Z;
  status : ProtocolStatus;
  media : list Media
}.

(** [protocol.media = m] *)
Definition set_media (m : list Media) (p : Protocol) : Protocol :=
  mkProtocol (protocol_number p) (car_state_number p) (date p)
             (violation_code p) (amount p) (status p) m.

(* ------------------------------------------------------------------------- *)
(** ** The regular expression of the audio reference *)

Module Regex.

(** The greedy group of the pattern followed by [suffix], at the head of [r]:
    the longest run of characters other than a newline after which [suffix]
    stands. *)
Fixpoint greedy_dot_star (suffix r : pystr) : option pystr :=
  match r with
  | c :: r' =>
      if N.eqb c 10 then (if starts_with suffix r then Some [] else None)
      else match greedy_dot_star suffix r' with
           | Some g => Some (c :: g)
           | None => if starts_with suffix r then Some [] else None
           end
  | [] => if starts_with suffix r then Some [] else None
  end.

Definition match_here (pre suffix s : pystr) : option pystr :=
  if starts_with pre s then greedy_dot_star suffix (skipn (length pre) s)
  else None.

(** [re.search] for [pre], the greedy group and [suffix]: the group of the
    leftmost match, [None] when there is no match. *)
Fixpoint search (pre suffix s : pystr) : option pystr :=
  match match_here pre suffix s with
  | Some g => Some g
  | None =>
      match s with
      | [] => None
      | _ :: s' => search pre suffix s'
      end
  end.

(** [re.search] of the audio reference, ['oggvideo-] and [.ogg';src2] around
    the group, then [.groups()[0]]. *)
Definition search_oggvideo (s : pystr) : option pystr :=
  search (lit "'oggvideo-") (lit ".ogg';src2") s.

End Regex.

(* ------------------------------------------------------------------------- *)
(** ** The session, the portal and the state of a run *)

Inductive http_method : Type := GET | POST.

Record request : Type := mkrequest {
  req_method : http_method;
  req_url : pystr;
  req_headers : list (pystr * pystr);
  req_data : list (pystr * pystr)
}.

(** A [requests.Response]: the URL the response came from once redirects
    were followed, the body as text and as bytes. *)
Record response : Type := mkresponse {
  resp_url : pystr;
  resp_text : pystr;
  resp_content : bytes
}.

(** The cookie jar of the session. *)
Definition jar := list (pystr * pystr).

(** The answer of [solve_and_return_solution]: the integer [0] when the
    image was not solved, the text otherwise. *)
Inductive solution : Type :=
| Unsolved
| Solved (captcha_text : pystr).

(** The fields of [Config] the scrapper reads; [session_id], which it also
    writes, is part of the state. *)
Record Config : Type := mkConfig {
  base_url : pystr;
  document_number : pystr;
  vehicle_number : pystr;
  anti_captcha_key : pystr;
  anti_captcha_soft_id : Z
}.

Inductive level : Type := DEBUG | INFO | ERROR.

Record log_record : Type := mklog {
  log_level : level;
  log_msg : pystr;
  log_args : list pystr
}.

(** [s] is truthy: neither [None] nor the empty string. *)
Definition truthy (s : option pystr) : bool :=
  match s with
  | Some (_ :: _) => true
  | _ => false
  end.

(** [cookies.get(name)]: the value of the cookie of that name, [None] when
    the jar has no such cookie or its value is empty; two cookies of the name
    in the jar are a [CookieConflictError]. *)
Definition jar_get (name : pystr) (j : jar) : result (option pystr) :=
  match filter (fun kv => PyStr.eqb (fst kv) name) j with
  | [] => Ok None
  | [(_, [])] => Ok None
  | [(_, value)] => Ok (Some value)
  | _ :: _ :: _ => Raise CookieConflictError
  end.

(** [cookies.set(name, value)] *)
Definition jar_set (name value : pystr) (j : jar) : jar :=
  (name, value) :: filter (fun kv => negb (PyStr.eqb (fst kv) name)) j.

Definition PHPSESSID : pystr := lit "PHPSESSID".

(** The headers of the login form. *)
Definition login_headers : list (pystr * pystr) :=
  [ (lit "Content-Type", lit "application/x-www-form-urlencoded");
    (lit "Origin", lit "https://videos.police.ge");
    (lit "Referer", lit "https://videos.police.ge/index.php?lang=ge");
    (lit "User-Agent",
     lit "Mozilla/5.0 (X11; Linux x86_64) AppleWebKit/537.36 (KHTML, like Gecko)"
     ++ lit "Chrome/108.0.0.0 Safari/537.36") ].

(** The status texts of the portal: "paid on time" and "unpaid". *)
Definition TEXT_PAID_ON_TIME : pystr :=
  [4306; 4304; 4307; 4304; 4334; 4307; 4312; 4314; 4312; 4304; 32;
   4307; 4320; 4317; 4323; 4314; 4304; 4307]%N.

Definition TEXT_UNPAID : pystr :=
  [4306; 4304; 4307; 4304; 4323; 4334; 4307; 4308; 4314; 4312; 4304]%N.

(* ------------------------------------------------------------------------- *)
(** ** Class [Scrapper] *)

Section Scrapper.

(** The world outside the process: the portal and the CAPTCHA service. *)
Variable World : Type.

(** The HTTP transport of [requests.Session]: a request goes out with the
    cookies of the jar; the transport raises, or gives the response and the
    jar as the exchange left it. *)
Variable transport : request -> jar -> World -> result (response * jar) * World.

(** The CAPTCHA oracle, [imagecaptcha.solve_and_return_solution], with the
    key and the soft id set on the solver and the bytes of the image file. *)
Variable oracle : pystr -> Z -> bytes -> World -> solution * World.

(** [BeautifulSoup(text, "html.parser")] *)
Variable html_parser : pystr -> node.

(** [str(tag)]: the markup of an element as BeautifulSoup writes it. *)
Variable markup : node -> pystr.

(** [self._config], but for [session_id]. *)
Variable config : Config.

(** The state of a run: the cookie jar of [self._session], the session token
    [self._config.session_id] of the caller's configuration, the world, every
    exchange with the portal so far, the records sent to the logger and the
    content of [/tmp/captcha.png]. *)
Record state : Type := mkstate {
  cookies : jar;
  session_id : option pystr;
  world : World;
  exchanges : list (request * result response);
  logged : list log_record;
  captcha_png : option bytes
}.

(** *** The monad *)

Definition M (A : Type) : Type := state -> result A * state.

Definition ret {A} (a : A) : M A := fun st => (Ok a, st).

Definition raise {A} (e : exn) : M A := fun st => (Raise e, st).

Definition bind {A B} (m : M A) (k : A -> M B) : M B :=
  fun st =>
    match m st with
    | (Ok a, st') => k a st'
    | (Raise e, st') => (Raise e, st')
    end.

Notation "x <- m ;; k" := (bind m (fun x => k))
  (at level 61, m at next level, right associativity).
Notation "m ;; k" := (bind m (fun _ => k))
  (at level 61, right associativity).

(** A pure computation that may raise. *)
Definition lift {A} (r : result A) : M A := fun st => (r, st).

(** [list(map(f, l))] for an [f] with effects: the elements in order, the
    first exception ends the run. *)
Fixpoint mapM {A B} (f : A -> M B) (l : list A) : M (list B) :=
  match l with
  | [] => ret []
  | a :: l' => b <- f a ;; bs <- mapM f l' ;; ret (b :: bs)
  end.

(** *** The primitives *)

Definition log (lv : level) (msg : pystr) (args : list pystr) : M unit :=
  fun st =>
    (Ok tt, mkstate (cookies st) (session_id st) (world st) (exchanges st)
                    (logged st ++ [mklog lv msg args]) (captcha_png st)).

(** One exchange over the session. *)
Definition send (rq : request) : M response :=
  fun st =>
    match transport rq (cookies st) (world st) with
    | (Ok (rsp, j), w) =>
        (Ok rsp, mkstate j (session_id st) w
                         (exchanges st ++ [(rq, Ok rsp)])
                         (logged st) (captcha_png st))
    | (Raise e, w) =>
        (Raise e, mkstate (cookies st) (session_id st) w
                          (exchanges st ++ [(rq, Raise e)])
                          (logged st) (captcha_png st))
    end.

(** [self._session.get(url)] *)
Definition session_get (url : pystr) : M response :=
  send (mkrequest GET url [] []).

(** [self._session.post(url, headers=headers, data=data)] *)
Definition session_post (url : pystr) (headers data : list (pystr * pystr))
  : M response :=
  send (mkrequest POST url headers data).

Definition set_cookies (j : jar) : M unit :=
  fun st =>
    (Ok tt, mkstate j (session_id st) (world st) (exchanges st)
                    (logged st) (captcha_png st)).

(** [self._session.cookies.clear()] *)
Definition cookies_clear : M unit := set_cookies [].

(** [self._session.cookies.set(name, value)] *)
Definition cookies_set (name value : pystr) : M unit :=
  fun st => set_cookies (jar_set name value (cookies st)) st.

(** [self._session.cookies.get(name)] *)
Definition cookies_get (name : pystr) : M (option pystr) :=
  fun st => (jar_get name (cookies st), st).

(** [self._config.session_id] *)
Definition get_session_id : M (option pystr) :=
  fun st => (Ok (session_id st), st).

(** [self._config.session_id = v] *)
Definition set_session_id (v : option pystr) : M unit :=
  fun st =>
    (Ok tt, mkstate (cookies st) v (world st) (exchanges st)
                    (logged st) (captcha_png st)).

(** [open("/tmp/captcha.png", "wb")] and [write(content)] *)
Definition write_captcha_png (content : bytes) : M unit :=
  fun st =>
    (Ok tt, mkstate (cookies st) (session_id st) (world st) (exchanges st)
                    (logged st) (Some content)).

(** The solver, set up with the key and the soft id of the configuration,
    on the image file. *)
Definition solve_and_return_solution : M solution :=
  fun st =>
    let image := match captcha_png st with Some b => b | None => [] end in
    let '(answer, w) :=
      oracle (anti_captcha_key config) (anti_captcha_soft_id config)
             image (world st) in
    (Ok answer, mkstate (cookies st) (session_id st) w (exchanges st)
                        (logged st) (captcha_png st)).

(** A computation that does not write the token of the configuration,
    whether it returns or raises. *)
Definition keeps_token {A} (m : M A) : Prop :=
  forall s, session_id (snd (m s)) = session_id s.

(** [x[key]] where [x] is what [find] gave: [None] is not subscriptable. *)
Definition subscript (x : option node) (key : pystr) : result pystr :=
  match x with
  | Some n => attr key n
  | None => Raise TypeError
  end.

(** [x.find(...)], [x.find_all(...)] where [x] is what [find] gave: [None]
    has no such attribute. *)
Definition not_none (x : option node) : result node :=
  on_some AttributeError x.

Definition str_of_option (x : option pystr) : pystr :=
  match x with
  | Some s => s
  | None => lit "None"
  end.

(** *** [_is_authenticated] *)

Definition _is_authenticated : M bool :=
  let url := base_url config ++ lit "/protocols.php" in
  response <- session_get url ;;
  if PyStr.eqb (resp_url response) url then
    log INFO (lit "Client is authenticated") [] ;;
    ret true
  else
    log INFO (lit "Client is not authenticated") [] ;;
    ret false.

(** *** [_authenticate] *)

(** The fields of the login form. *)
Definition login_form (captcha_text csrf : pystr) : list (pystr * pystr) :=
  [ (lit "protocolNo", []);
    (lit "personalNo", []);
    (lit "documentNo", document_number config);
    (lit "vehicleNo2", vehicle_number config);
    (lit "captcha_code", captcha_text);
    (lit "lang", lit "ge");
    (lit "csrf_token", csrf) ].

Definition is_captcha_img (n : node) : bool :=
  (named (lit "img") n && has_attr (lit "id") (lit "captcha_code_img") n)%bool.

Definition is_csrf_input (n : node) : bool :=
  (named (lit "input") n && has_attr (lit "name") (lit "csrf_token") n)%bool.

Definition is_warning (n : node) : bool :=
  (named (lit "div") n && has_class [lit "value"; lit "warning"] n)%bool.

Definition _authenticate : M (option pystr) :=
  log INFO (lit "Sending authentication request") [] ;;
  cookies_clear ;;
  page <- session_get (base_url config) ;;
  let soup := html_parser (resp_text page) in
  let captcha_img := Soup.find is_captcha_img soup in
  let csrf_token := Soup.find is_csrf_input soup in
  src <- lift (subscript captcha_img (lit "src")) ;;
  captcha_img_response <- session_get src ;;
  write_captcha_png (resp_content captcha_img_response) ;;
  log INFO (lit "Sending captcha solving request") [] ;;
  answer <- solve_and_return_solution ;;
  match answer with
  | Unsolved =>
      log ERROR (lit "Could not get captcha solution") [] ;;
      ret None
  | Solved captcha_text =>
      log DEBUG (lit "Captcha solution received: %s") [captcha_text] ;;
      csrf <- lift (subscript csrf_token (lit "value")) ;;
      response <- session_post (base_url config ++ lit "/submit-index.php")
                               login_headers
                               (login_form captcha_text csrf) ;;
      if contains (lit "protocols.php") (resp_url response) then
        log INFO (lit "Client have been authenticated successfully") [] ;;
        sid <- cookies_get PHPSESSID ;;
        log DEBUG (lit "Session ID received: %s") [str_of_option sid] ;;
        ret sid
      else
        let soup := html_parser (resp_text response) in
        let warning := Soup.find is_warning soup in
        log ERROR (lit "Unable to authenticate client. Reason: %s")
            [match warning with Some w => text w | None => [] end] ;;
        ret None
  end.

(** *** [__init__]

    The session is new: a run of the constructor starts with an empty jar. *)
Definition Scrapper_init : M unit :=
  configured <- get_session_id ;;
  (if truthy configured
   then cookies_set PHPSESSID (str_of_option configured)
   else ret tt) ;;
  authenticated <- _is_authenticated ;;
  if negb authenticated then
    token <- _authenticate ;;
    set_session_id token ;;
    stored <- get_session_id ;;
    if negb (truthy stored) then raise AuthException else ret tt
  else ret tt.

(** *** [_get_protocol_info] *)

Definition is_col (n : node) : bool :=
  (named (lit "span") n && has_class [lit "col"] n)%bool.

(** [descendants[0].text] of the date column, then [strptime]. *)
Definition format_date (tag : node) : result pydate :=
  rbind (index (descendants tag) 0) (fun first =>
  strptime_dmY (text first)).

(** [raw_amount[:-4]]: a string loses its last four characters; an element
    cannot be sliced ([TypeError]; a [KeyError] from Python 3.12 on). *)
Definition slice_amount (raw_amount : node) : result pystr :=
  match raw_amount with
  | Text s => Ok (drop_last 4 s)
  | Tag _ _ _ _ => Raise TypeError
  end.

Definition format_money_element (tag : node) : result Z :=
  match descendants tag with
  | raw_amount :: _ =>
      rbind (slice_amount raw_amount) (fun digits =>
      rbind (PyFloat.of_str digits) (fun parsed =>
      let float_amount := PyFloat.mul parsed (PyFloat.of_int 100) in
      PyFloat.ceil float_amount))
  | [] => Ok 0
  end.

Definition format_status (tag : node) : ProtocolStatus :=
  if PyStr.eqb (text tag) TEXT_PAID_ON_TIME then PAID_ON_TIME
  else if PyStr.eqb (text tag) TEXT_UNPAID then UNPAID
  else UNKNOWN.

Definition _get_protocol_info (row : node) : M Protocol :=
  let cols := find_all is_col row in
  col1 <- lift (index cols 1) ;;
  let receipt_and_numbers := map own_text (filter is_str (descendants col1)) in
  number1 <- lift (index receipt_and_numbers 1) ;;
  number0 <- lift (index receipt_and_numbers 0) ;;
  log INFO (lit "Getting information about protocol %s/%s")
      [number1; number0] ;;
  col2 <- lift (index cols 2) ;;
  the_date <- lift (format_date col2) ;;
  col3 <- lift (index cols 3) ;;
  col4 <- lift (index cols 4) ;;
  the_amount <- lift (format_money_element col4) ;;
  col6 <- lift (index cols 6) ;;
  ret (mkProtocol number0 number1 the_date (text col3) the_amount
                  (format_status col6) default_media).

(** *** [_get_protocol_media] *)

Definition is_div (n : node) : bool := named (lit "div") n.

Definition is_content (n : node) : bool :=
  (is_div n && has_attr (lit "id") (lit "content") n)%bool.

(** The wrapper of the attachments: the second [div] child of the first
    [div] below the content container. *)
Definition media_wrapper (soup : node) : result node :=
  rbind (not_none (Soup.find is_content soup)) (fun content =>
  rbind (not_none (Soup.find is_div content)) (fun inner =>
  index (find_all_children is_div inner) 1)).

(** The relative URL and the kind of the media of one placeholder. *)
Definition media_reference (tag : node) : result (pystr * MediaType) :=
  match Soup.find (named (lit "img")) tag with
  | Some try_img =>
      rbind (attr (lit "src") try_img) (fun src => Ok (src, PNG))
  | None =>
      match Regex.search_oggvideo (markup tag) with
      | Some id => Ok (lit "oggvideo-" ++ id ++ lit ".ogg", OGG)
      | None => Raise AttributeError
      end
  end.

Definition create_media_blob (tag : node) : M Media :=
  ref <- lift (media_reference tag) ;;
  let '(url, media_type) := ref in
  log INFO (lit "Getting media item from: /%s") [url] ;;
  response <- session_get (base_url config ++ lit "/" ++ url) ;;
  ret (mkMedia (resp_content response) media_type).

(** The placeholders of the attachments: the [div] children of the
    wrapper. *)
Definition placeholders (wrapper : node) : list node :=
  find_all_children is_div wrapper.

Definition _get_protocol_media (media_page_url : pystr) : M (list Media) :=
  log INFO (lit "Getting media from page: /%s") [media_page_url] ;;
  page <- session_get (base_url config ++ lit "/" ++ media_page_url) ;;
  let soup := html_parser (resp_text page) in
  wrapper <- lift (media_wrapper soup) ;;
  mapM create_media_blob (placeholders wrapper).

(** *** [get_protocols] *)

Definition is_grid (n : node) : bool :=
  (is_div n && has_class [lit "grid"] n)%bool.

Definition is_row (n : node) : bool :=
  (is_div n && has_class [lit "row"] n)%bool.

Definition is_link (n : node) : bool := named (lit "a") n.

Definition process_protocol_row (row : node) : M Protocol :=
  match Soup.find is_link row with
  | Some media_link =>
      protocol <- _get_protocol_info media_link ;;
      href <- lift (attr (lit "href") media_link) ;;
      attached <- _get_protocol_media href ;;
      ret (set_media attached protocol)
  | None => _get_protocol_info row
  end.

(** The rows of the listing: every [div] of class [row] below the grid. *)
Definition listing_rows (soup : node) : result (list node) :=
  rbind (not_none (Soup.find is_grid soup)) (fun grid =>
  Ok (find_all is_row grid)).

Definition get_protocols : M (list Protocol) :=
  log INFO (lit "Getting client protocols") [] ;;
  page <- session_get (base_url config ++ lit "/protocols.php") ;;
  let soup := html_parser (resp_text page) in
  rows <- lift (listing_rows soup) ;;
  mapM process_protocol_row rows.

(** The state of a run of [get_protocols] once the listing has come back as
    [page], the jar and the world as the exchange left them. *)
Definition listing_fetched (st : state) (page : response) (j : jar)
    (w : World) : state :=
  mkstate j (session_id st) w
    (exchanges st ++
       [(mkrequest GET (base_url config ++ lit "/protocols.php") [] [],
         Ok page)])
    (logged st ++ [mklog INFO (lit "Getting client protocols") []])
    (captcha_png st).

(** *** What a computation does to the session

    [appends Q m]: whatever the state, and whether it returns or raises, [m]
    leaves the exchanges it found and adds to them a list that satisfies
    [Q]. *)
Definition appends (Q : list (request * result response) -> Prop) {A}
    (m : M A) : Prop :=
  forall s, exists new,
    exchanges (snd (m s)) = exchanges s ++ new /\ Q new.

(** [offline m]: [m] sends nothing and writes neither the jar, nor the token
    of the configuration, nor the image file, and does not touch the world,
    whether it returns or raises. *)
Definition offline {A} (m : M A) : Prop :=
  forall s,
    cookies (snd (m s)) = cookies s /\
    session_id (snd (m s)) = session_id s /\
    world (snd (m s)) = world s /\
    exchanges (snd (m s)) = exchanges s /\
    captcha_png (snd (m s)) = captcha_png s.

(** The same state but for the jar. *)
Definition with_cookies (j : jar) (s : state) : state :=
  mkstate j (session_id s) (world s) (exchanges s) (logged s) (captcha_png s).

End Scrapper.

(** The exchanges that are a [POST]. *)
Definition is_post (x : request * result response) : bool :=
  match req_method (fst x) with
  | POST => true
  | GET => false
  end.

Definition posts (l : list (request * result response)) : nat :=
  length (filter is_post l).

(** At most [n] exchanges, at most [p] of them a [POST]. *)
Definition at_most (n p : nat) (l : list (request * result response)) : Prop :=
  (length l <= n)%nat /\ (posts l <= p)%nat.

(** No [POST] among the exchanges. *)
Definition only_gets (l : list (request * result response)) : Prop :=
  posts l = 0%nat.

(* ------------------------------------------------------------------------- *)
(** ** Texts as the portal writes them *)

Module Written.

(** The character of a digit. *)
Definition digit_char (k : Z) : N := Z.to_N (48 + k).

(** A number below 100 in two digits, a number below 10000 in four. *)
Definition two_digits (n : Z) : pystr :=
  [digit_char (n / 10); digit_char (n mod 10)].

Definition four_digits (n : Z) : pystr :=
  [digit_char (n / 1000); digit_char (n / 100 mod 10);
   digit_char (n / 10 mod 10); digit_char (n mod 10)].

(** A date as [dd.mm.yyyy]. *)
Definition date_text (d m y : Z) : pystr :=
  two_digits d ++ lit "." ++ two_digits m ++ lit "." ++ four_digits y.

(** A natural number in decimal, without leading zeros. *)
Fixpoint decimal_from (fuel : nat) (n : Z) (acc : pystr) : pystr :=
  match fuel with
  | O => acc
  | S fuel' =>
      let acc' := digit_char (n mod 10) :: acc in
      if n / 10 =? 0 then acc' else decimal_from fuel' (n / 10) acc'
  end.

Definition decimal (n : Z) : pystr := decimal_from 40 n [].

(** An amount of [cents] hundredths written with two decimals, as in
    [15.50]. *)
Definition amount_numeral (cents : Z) : pystr :=
  decimal (cents / 100) ++ lit "." ++ two_digits (cents mod 100).

(** The amount the code computes from a numeral: [float], the product with
    100, [math.ceil]. *)
Definition amount_of_numeral (numeral : pystr) : result Z :=
  rbind (PyFloat.of_str numeral) (fun parsed =>
  PyFloat.ceil (PyFloat.mul parsed (PyFloat.of_int 100))).

(** The amount computed from the numeral of [cents] is [cents] or
    [cents + 1], and [cents] when the amount is whole. *)
Definition amount_check (cents : Z) : bool :=
  match amount_of_numeral (amount_numeral cents) with
  | Ok r =>
      ((cents <=? r) && (r <=? cents + 1) &&
       (negb (cents mod 100 =? 0) || (r =? cents)))%bool
  | Raise _ => false
  end.

(** The [n] numbers from [start] on. *)
Fixpoint count_from (start : Z) (n : nat) : list Z :=
  match n with
  | O => []
  | S n' => start :: count_from (start + 1) n'
  end.

(** The amounts from 0 to [n - 1] hundredths. *)
Definition amounts_below (n : Z) : list Z := count_from 0 (Z.to_nat n).

End Written.

(* ------------------------------------------------------------------------- *)
(** ** The amount as the specification words it *)

Module SpecAmount.

(** An unsigned decimal numeral [ddd] or [ddd.ddd]: the integer its digits
    spell and the number of digits behind the point. *)
Definition decimal_numeral (s : pystr) : option (Z * Z) :=
  let '(ip, n_int, s1) := PyFloat.take_digits 0 0 s in
  match s1 with
  | [] => if n_int =? 0 then None else Some (ip, 0)
  | 46%N :: r =>
      let '(d, n_all, s2) := PyFloat.take_digits ip n_int r in
      match s2 with
      | [] => if n_all =? 0 then None else Some (d, n_all - n_int)
      | _ :: _ => None
      end
  | _ :: _ => None
  end.

(** [ceil(value_without_suffix * 100)], in exact arithmetic: the text loses
    its suffix of four characters, what is left is read as a decimal number,
    multiplied by 100 and rounded up. *)
Definition ceil_of_hundredfold (amount_text : pystr) : option Z :=
  match decimal_numeral (drop_last 4 amount_text) with
  | Some (d, frac) => Some (- ((- (d * 100)) / 10 ^ frac))
  | None => None
  end.

End SpecAmount.

(* ------------------------------------------------------------------------- *)
(** ** A small portal, for the examples *)

Module Demo.

Definition tag (name : string) (attrs : list (pystr * pystr))
    (classes : list pystr) (children : list node) : node :=
  Tag (lit name) attrs classes children.

Definition col (children : list node) : node :=
  tag "span" [] [lit "col"] children.

(** A row of the listing: seven columns. *)
Definition columns (number plate day code : pystr) (money : list node)
    (paid : pystr) : list node :=
  [ col [Text (lit "1")];
    col [Text number; tag "br" [] [] []; Text plate];
    col [Text day];
    col [Text code];
    col money;
    col [];
    col [Text paid] ].

(** A row without a detail link, with the given text in its amount
    column. *)
Definition row_with_amount (money : pystr) : node :=
  tag "div" [] [lit "row"]
    (columns (lit "0001122") (lit "AA-001-BB") (lit "01.05.2023") (lit "K-5")
             [Text money] TEXT_UNPAID).

(** A row whose amount column is empty. *)
Definition row_without_amount : node :=
  tag "div" [] [lit "row"]
    (columns (lit "0001122") (lit "AA-001-BB") (lit "01.05.2023") (lit "K-5")
             [] TEXT_UNPAID).

(** The row of scenario A. *)
Definition row_A : node := row_with_amount (lit "15.50GEL").

Definition protocol_A : Protocol :=
  mkProtocol (lit "0001122") (lit "AA-001-BB") (mkdate 2023 5 1) (lit "K-5")
             1550 UNPAID [].

(** A row whose columns stand inside a link to a detail page. *)
Definition linked_row (href : pystr) : node :=
  tag "div" [] [lit "row"]
    [ tag "a" [(lit "href", href)] []
        (columns (lit "0002233") (lit "BB-002-CC") (lit "17.11.2022")
                 (lit "K-7") [Text (lit "10.00 GEL")] TEXT_PAID_ON_TIME) ].

Definition listing (rows : list node) : node :=
  tag "[document]" [] []
    [ tag "html" [] [] [ tag "div" [] [lit "grid"] rows ] ].

(** A detail page with the given attachment placeholders. *)
Definition detail (attachments : list node) : node :=
  tag "[document]" [] []
    [ tag "div" [(lit "id", lit "content")] []
        [ tag "div" [] []
            [ tag "div" [] [lit "title"] [Text (lit "Protocol")];
              Text (lit " ");
              tag "div" [] [lit "media"] attachments ] ] ].

Definition image_placeholder : node :=
  tag "div" [] [] [ tag "img" [(lit "src", lit "img/x.png")] [] [] ].

Definition audio_placeholder : node :=
  tag "div" [] []
    [ tag "script" [] []
        [ Text (lit "var src1='oggvideo-42.ogg';src2='';") ] ].

Definition empty_placeholder : node :=
  tag "div" [] [] [ Text (lit "no media") ].

Definition login_page : node :=
  tag "[document]" [] []
    [ tag "form" [] []
        [ tag "img" [(lit "id", lit "captcha_code_img");
                     (lit "src", lit "http://portal/captcha.php")] [] [];
          tag "input" [(lit "name", lit "csrf_token");
                       (lit "value", lit "t0k3n")] [] [] ] ].

Definition rejection_page : node :=
  tag "[document]" [] []
    [ tag "div" [] [lit "warning"] [Text (lit "wrong code")] ].

(** The parser of the examples knows the pages by their text. *)
Definition html_parser (page_text : pystr) : node :=
  if PyStr.eqb page_text (lit "login") then login_page
  else if PyStr.eqb page_text (lit "rejected") then rejection_page
  else if PyStr.eqb page_text (lit "listing") then
    listing [linked_row (lit "detail.php?id=1"); row_A]
  else if PyStr.eqb page_text (lit "listing-broken") then
    listing [row_A; linked_row (lit "detail.php?id=2")]
  else if PyStr.eqb page_text (lit "detail-1") then
    detail [image_placeholder; Text (lit " "); audio_placeholder]
  else if PyStr.eqb page_text (lit "detail-2") then
    detail [image_placeholder; empty_placeholder]
  else tag "[document]" [] [] [].

(** The serialiser of the examples writes no attributes. *)
Fixpoint markup (n : node) : pystr :=
  match n with
  | Text s => s
  | Tag name _ _ cs =>
      lit "<" ++ name ++ lit ">" ++ concat (map markup cs)
      ++ lit "</" ++ name ++ lit ">"
  end.

Definition config : Config :=
  mkConfig (lit "http://portal") (lit "DOC-1") (lit "AA-001-BB")
           (lit "key") 0.

(** The world of the examples: what the CAPTCHA oracle will answer. *)
Definition World := solution.

Definition oracle (key : pystr) (soft_id : Z) (image : bytes) (w : World)
  : solution * World := (w, w).

Definition page (url body : pystr) : response := mkresponse url body [].

Definition data_of (key : pystr) (rq : request) : option pystr :=
  option_map snd (List.find (fun kv => PyStr.eqb (fst kv) key) (req_data rq)).

Definition logged_in (j : jar) : bool :=
  match jar_get PHPSESSID j with
  | Ok (Some v) => PyStr.eqb v (lit "fresh")
  | _ => false
  end.

(** The portal of the examples.  The listing is served to a session with the
    cookie [fresh], any other session is sent to the login page; the login
    form is accepted with the code [xk4f2], and the cookie is set then. *)
Definition transport (rq : request) (j : jar) (w : World)
  : result (response * jar) * World :=
  let u := req_url rq in
  match req_method rq with
  | GET =>
      if PyStr.eqb u (lit "http://portal/protocols.php") then
        if logged_in j then (Ok (page u (lit "listing"), j), w)
        else (Ok (page (lit "http://portal/index.php") (lit "login"), j), w)
      else if PyStr.eqb u (lit "http://portal") then
        (Ok (page u (lit "login"), j), w)
      else if PyStr.eqb u (lit "http://portal/captcha.php") then
        (Ok (mkresponse u [] [Byte.x89; Byte.x50; Byte.x4e; Byte.x47], j), w)
      else if PyStr.eqb u (lit "http://portal/detail.php?id=1") then
        (Ok (page u (lit "detail-1"), j), w)
      else if PyStr.eqb u (lit "http://portal/detail.php?id=2") then
        (Ok (page u (lit "detail-2"), j), w)
      else if PyStr.eqb u (lit "http://portal/img/x.png") then
        (Ok (mkresponse u [] [Byte.x01], j), w)
      else if PyStr.eqb u (lit "http://portal/oggvideo-42.ogg") then
        (Ok (mkresponse u [] [Byte.x02; Byte.x03], j), w)
      else (Raise TransportError, w)
  | POST =>
      if PyStr.eqb u (lit "http://portal/submit-index.php") then
        match data_of (lit "captcha_code") rq with
        | Some code =>
            if PyStr.eqb code (lit "xk4f2") then
              (Ok (page (lit "http://portal/protocols.php") (lit "listing"),
                   jar_set PHPSESSID (lit "fresh") j), w)
            else (Ok (page (lit "http://portal/index.php") (lit "rejected"), j), w)
        | None => (Ok (page (lit "http://portal/index.php") (lit "rejected"), j), w)
        end
      else (Raise TransportError, w)
  end.

(** The portal that serves a listing with a broken detail page. *)
Definition broken_transport (rq : request) (j : jar) (w : World)
  : result (response * jar) * World :=
  if PyStr.eqb (req_url rq) (lit "http://portal/protocols.php")
  then (Ok (page (req_url rq) (lit "listing-broken"), j), w)
  else transport rq j w.

(** The state at the start of a run: a new session, the token of the
    configuration, the answer the oracle will give. *)
Definition start (token : option pystr) (w : World) : state World :=
  mkstate World [] token w [] [] None.

(** A run of the constructor. *)
Definition run_init (token : option pystr) (w : World)
  : result unit * state World :=
  Scrapper_init World transport oracle html_parser config (start token w).

(** The state of a scrapper whose session the portal knows. *)
Definition signed_in : state World :=
  mkstate World [(PHPSESSID, lit "fresh")] (Some (lit "fresh")) Unsolved
          [] [] None.

Definition listing_url : pystr := lit "http://portal/protocols.php".

Definition the_rows : list node := [linked_row (lit "detail.php?id=1"); row_A].

Definition broken_listing_page : response :=
  page listing_url (lit "listing-broken").

(** The state of a run of [get_protocols] on the broken listing, its first
    row done. *)
Definition after_first_row : state World :=
  snd (mapM World
         (process_protocol_row World broken_transport html_parser markup
                               config)
         [row_A]
         (listing_fetched World config signed_in broken_listing_page
                          (cookies World signed_in) Unsolved)).

End Demo.

(** Pages and rows off the template, for the examples of the failures. *)
Module DemoMore.

(** A parser that finds nothing in any page. *)
Definition bare_parser (page_text : pystr) : node :=
  Demo.tag "[document]" [] [] [].

(** A login page with the CAPTCHA image and no anti-forgery field. *)
Definition login_without_csrf : node :=
  Demo.tag "[document]" [] []
    [ Demo.tag "form" [] []
        [ Demo.tag "img" [(lit "id", lit "captcha_code_img");
                          (lit "src", lit "http://portal/captcha.php")]
                   [] [] ] ].

Definition parser_without_csrf (page_text : pystr) : node :=
  login_without_csrf.

(** A listing whose grid has no row. *)
Definition parser_of_empty_grid (page_text : pystr) : node :=
  Demo.listing [].

(** A row of three columns. *)
Definition short_row : node :=
  Demo.tag "div" [] [lit "row"]
    [ Demo.col [Text (lit "1")]; Demo.col [Text (lit "0001122")];
      Demo.col [Text (lit "01.05.2023")] ].

(** A row whose link has no address. *)
Definition row_without_href : node :=
  Demo.tag "div" [] [lit "row"]
    [ Demo.tag "a" [] []
        (Demo.columns (lit "0002233") (lit "BB-002-CC") (lit "17.11.2022")
                      (lit "K-7") [Text (lit "10.00 GEL")]
                      TEXT_PAID_ON_TIME) ].

(** A placeholder whose image has no source, beside an audio reference. *)
Definition image_without_src : node :=
  Demo.tag "div" [] []
    [ Demo.tag "img" [(lit "alt", lit "photo")] [] [];
      Demo.tag "script" [] []
        [ Text (lit "var src1='oggvideo-42.ogg';src2='';") ] ].

(** The state of a scrapper whose session the portal does not know. *)
Definition signed_out : state Demo.World :=
  mkstate Demo.World [(PHPSESSID, lit "stale")] (Some (lit "stale"))
          (Solved (lit "xk4f2")) [] [] None.

(** A child of the wrapper that is not a [div]: no image below it, no audio
    reference in its markup. *)
Definition span_child : node :=
  Demo.tag "span" [] [] [Text (lit "no media")].

(** The wrapper of a detail page with one placeholder, a text and the
    [span]. *)
Definition mixed_wrapper : node :=
  Demo.tag "div" [] [lit "media"]
    [Demo.image_placeholder; Text (lit " "); span_child].

(** The parser of the examples, but for the first detail page, which has
    the mixed wrapper. *)
Definition parser_of_mixed_wrapper (page_text : pystr) : node :=
  if PyStr.eqb page_text (lit "detail-1")
  then Demo.detail [Demo.image_placeholder; Text (lit " "); span_child]
  else Demo.html_parser page_text.

(** A portal whose answer to the login form leaves two cookies [PHPSESSID]
    in the jar. *)
Definition doubling_transport (rq : request) (j : jar) (w : Demo.World)
  : result (response * jar) * Demo.World :=
  match req_method rq with
  | POST =>
      (Ok (Demo.page (lit "http://portal/protocols.php") (lit "listing"),
           [(PHPSESSID, lit "fresh"); (PHPSESSID, lit "other")]), w)
  | GET => Demo.transport rq j w
  end.

End DemoMore.

(* ========================================================================= *)
(** * Properties *)

(** ** Strings *)

Lemma pystr_eqb_eq (a b : pystr) : PyStr.eqb a b = true <-> a = b.
Proof.
  revert b; induction a as [|x a IH]; intros [|y b]; simpl;
    try (split; [discriminate | intros H; discriminate H]);
    try (split; reflexivity).
  rewrite andb_true_iff, N.eqb_eq, IH.
  split; [intros [-> ->]; reflexivity | intros H; inversion H; auto].
Qed.

Lemma pystr_eqb_refl (a : pystr) : PyStr.eqb a a = true.
Proof. apply pystr_eqb_eq; reflexivity. Qed.

Lemma pystr_eqb_neq (a b : pystr) : PyStr.eqb a b = false <-> a <> b.
Proof.
  destruct (PyStr.eqb a b) eqn:E.
  - apply pystr_eqb_eq in E. split; [discriminate | intros H; contradiction].
  - split; [intros _ H; apply pystr_eqb_eq in H; congruence | reflexivity].
Qed.

(** ** The session probe *)

Section Probe.

Variable World : Type.
Variable transport : request -> jar -> World -> result (response * jar) * World.
Variable config : Config.

(** C8.  The probe asks for the listing, [base_url + "/protocols.php"], and
    answers [True] exactly when the URL of the final response, redirects
    followed, is the URL it asked for; with any other final URL it answers
    [False]. *)
Theorem is_authenticated_iff_final_url :
  forall (st : state World) rsp j w,
    let url := base_url config ++ lit "/protocols.php" in
    transport (mkrequest GET url [] []) (cookies _ st) (world _ st)
      = (Ok (rsp, j), w) ->
    (fst (_is_authenticated World transport config st) = Ok true
       <-> resp_url rsp = url) /\
    (fst (_is_authenticated World transport config st) = Ok false
       <-> resp_url rsp <> url).
Proof.
  intros st rsp j w url H.
  unfold _is_authenticated, bind, session_get, send.
  fold url. rewrite H.
  destruct (PyStr.eqb (resp_url rsp) url) eqn:E; simpl.
  - apply pystr_eqb_eq in E. split; split; intros; congruence.
  - apply pystr_eqb_neq in E. split; split; intros; congruence.
Qed.

End Probe.

(** ** The monad *)

Section MonadFacts.

Variable World : Type.

Lemma bind_ok_inv {A B} (m : M World A) (k : A -> M World B) s b s' :
  bind World m k s = (Ok b, s') ->
  exists a s1, m s = (Ok a, s1) /\ k a s1 = (Ok b, s').
Proof.
  unfold bind. destruct (m s) as [[a|e] s1]; intros H.
  - exists a, s1. split; [reflexivity | exact H].
  - discriminate H.
Qed.

Lemma bind_ok {A B} (m : M World A) (k : A -> M World B) s a s1 :
  m s = (Ok a, s1) -> bind World m k s = k a s1.
Proof. unfold bind. intros ->. reflexivity. Qed.

Lemma bind_raise {A B} (m : M World A) (k : A -> M World B) s e s1 :
  m s = (Raise e, s1) -> bind World m k s = (Raise e, s1).
Proof. unfold bind. intros ->. reflexivity. Qed.

Lemma lift_ok_inv {A} (r : result A) s a s' :
  lift World r s = (Ok a, s') -> r = Ok a /\ s' = s.
Proof. unfold lift. intros H. inversion H. split; reflexivity. Qed.

(** A run of [mapM] that returns gives one result for each element, in
    order, each the result of the function on its element. *)
Lemma mapM_ok_forall2 {A B} (f : A -> M World B) l :
  forall s bs s',
    mapM World f l s = (Ok bs, s') ->
    Forall2 (fun a b => exists s1 s2, f a s1 = (Ok b, s2)) l bs.
Proof.
  induction l as [|a l IH]; simpl; intros s bs s' H.
  - inversion H. constructor.
  - apply bind_ok_inv in H. destruct H as (b & s1 & Hb & H).
    apply bind_ok_inv in H. destruct H as (bs' & s2 & Hbs & H).
    inversion H; subst. constructor.
    + exists s, s1. exact Hb.
    + eapply IH. exact Hbs.
Qed.

(** [mapM] returns when the function returns on every element, whatever the
    state. *)
Lemma mapM_total {A B} (f : A -> M World B) l :
  (forall a, In a l -> forall s, exists b s', f a s = (Ok b, s')) ->
  forall s, exists bs s', mapM World f l s = (Ok bs, s').
Proof.
  induction l as [|a l IH]; simpl; intros Hf s.
  - exists [], s. reflexivity.
  - destruct (Hf a (or_introl eq_refl) s) as (b & s1 & Hb).
    destruct (IH (fun x Hx => Hf x (or_intror Hx)) s1) as (bs & s2 & Hbs).
    exists (b :: bs), s2.
    rewrite (bind_ok _ _ _ _ _ Hb), (bind_ok _ _ _ _ _ Hbs). reflexivity.
Qed.

(** An exception on one element, the elements before it done, ends the
    run of [mapM] with that exception. *)
Lemma mapM_raise_at {A B} (f : A -> M World B) pre :
  forall a post s bs s1 e s2,
    mapM World f pre s = (Ok bs, s1) ->
    f a s1 = (Raise e, s2) ->
    mapM World f (pre ++ a :: post) s = (Raise e, s2).
Proof.
  induction pre as [|x pre IH]; simpl; intros a post s bs s1 e s2 Hpre Ha.
  - inversion Hpre; subst. apply bind_raise. exact Ha.
  - apply bind_ok_inv in Hpre. destruct Hpre as (b & t1 & Hb & H).
    apply bind_ok_inv in H. destruct H as (bs' & t2 & Hbs & H).
    inversion H; subst.
    rewrite (bind_ok _ _ _ _ _ Hb).
    apply bind_raise. eapply IH; eassumption.
Qed.

End MonadFacts.

(** ** Authentication *)

Section Authentication.

Variable World : Type.
Variable transport : request -> jar -> World -> result (response * jar) * World.
Variable oracle : pystr -> Z -> bytes -> World -> solution * World.
Variable html_parser : pystr -> node.
Variable config : Config.

Local Notation "'authenticate'" :=
  (_authenticate World transport oracle html_parser config).
Local Notation "'probe'" := (_is_authenticated World transport config).
Local Notation "'init'" :=
  (Scrapper_init World transport oracle html_parser config).

Lemma keeps_bind {A B} (m : M World A) (k : A -> M World B) :
  keeps_token _ m -> (forall a, keeps_token _ (k a)) -> keeps_token _ (bind _ m k).
Proof.
  intros Hm Hk s. unfold bind. specialize (Hm s).
  destruct (m s) as [[a|e] s1]; simpl in *.
  - rewrite Hk. exact Hm.
  - exact Hm.
Qed.

Lemma keeps_ret {A} (a : A) : keeps_token _ (ret World a).
Proof. intros s. reflexivity. Qed.

Lemma keeps_lift {A} (r : result A) : keeps_token _ (lift World r).
Proof. intros s. reflexivity. Qed.

Lemma keeps_log lv msg args : keeps_token _ (log World lv msg args).
Proof. intros s. reflexivity. Qed.

Lemma keeps_send rq : keeps_token _ (send World transport rq).
Proof.
  intros s. unfold send.
  destruct (transport rq (cookies _ s) (world _ s)) as [[[rsp j]|e] w];
    reflexivity.
Qed.

Lemma keeps_set_cookies j : keeps_token _ (set_cookies World j).
Proof. intros s. reflexivity. Qed.

Lemma keeps_cookies_get name : keeps_token _ (cookies_get World name).
Proof. intros s. reflexivity. Qed.

Lemma keeps_write_captcha_png b : keeps_token _ (write_captcha_png World b).
Proof. intros s. reflexivity. Qed.

Lemma keeps_solve :
  keeps_token _ (solve_and_return_solution World oracle config).
Proof.
  intros s. unfold solve_and_return_solution.
  destruct (oracle _ _ _ _) as [answer w]. reflexivity.
Qed.

Ltac bind_inv H a s Ha :=
  apply bind_ok_inv in H; destruct H as (a & s & Ha & H).

Ltac keeps :=
  repeat first
    [ apply keeps_bind; [| intros ?]
    | apply keeps_ret | apply keeps_lift | apply keeps_log
    | apply keeps_send | apply keeps_set_cookies | apply keeps_cookies_get
    | apply keeps_write_captcha_png | apply keeps_solve
    | match goal with
      | |- keeps_token _ (match ?x with _ => _ end) => destruct x
      end ].

Lemma authenticate_keeps_token : keeps_token _ authenticate.
Proof.
  unfold _authenticate, cookies_clear, session_get, session_post. keeps.
Qed.

Lemma probe_keeps_token : keeps_token _ probe.
Proof. unfold _is_authenticated, session_get. keeps. Qed.

(** A token comes back from the negotiation only through the branch taken
    when the URL of the response to the login form holds [protocols.php]; it
    is then the value of the session cookie. *)
Lemma authenticate_token_inv st token st' :
  authenticate st = (Ok (Some token), st') ->
  exists before rq rsp,
    exchanges _ st' = before ++ [(rq, Ok rsp)] /\
    req_method rq = POST /\
    req_url rq = base_url config ++ lit "/submit-index.php" /\
    contains (lit "protocols.php") (resp_url rsp) = true /\
    jar_get PHPSESSID (cookies _ st') = Ok (Some token).
Proof.
  unfold _authenticate. intros H.
  bind_inv H u1 s1 H1. bind_inv H u2 s2 H2. bind_inv H page s3 H3.
  bind_inv H src s4 H4. bind_inv H shot s5 H5. bind_inv H u6 s6 H6.
  bind_inv H u7 s7 H7. bind_inv H answer s8 H8.
  destruct answer as [|captcha_text].
  - bind_inv H u9 s9 H9. inversion H.
  - bind_inv H u9 s9 H9. bind_inv H csrf s10 H10. bind_inv H rsp s11 H11.
    destruct (contains (lit "protocols.php") (resp_url rsp)) eqn:Hurl.
    + bind_inv H u12 s12 H12. bind_inv H sid s13 H13. bind_inv H u14 s14 H14.
      inversion H; subst; clear H.
      unfold session_post, send in H11.
      destruct (transport _ (cookies _ s10) (world _ s10))
        as [[[rsp' j]|e] w] eqn:Ht; inversion H11; subst; clear H11.
      unfold log in H12, H14. inversion H12; subst; clear H12.
      inversion H14; subst; clear H14.
      unfold cookies_get in H13. injection H13 as Hjar <-.
      simpl. eexists _, _, _.
      split; [reflexivity|]. split; [reflexivity|]. split; [reflexivity|].
      split; [exact Hurl | exact Hjar].
    + bind_inv H u12 s12 H12. inversion H.
Qed.

(** C9.  When the CAPTCHA oracle answers with its failure value, the
    negotiation returns [None]: it raises nothing, the only requests it has
    sent are the two [GET]s, of the login page and of the image, and the
    login form is not posted. *)
Theorem captcha_failure_short_circuits :
  forall (st : state World) page j1 w1 img src shot j2 w2 w3,
    transport (mkrequest GET (base_url config) [] []) [] (world _ st)
      = (Ok (page, j1), w1) ->
    Soup.find is_captcha_img (html_parser (resp_text page)) = Some img ->
    attr (lit "src") img = Ok src ->
    transport (mkrequest GET src [] []) j1 w1 = (Ok (shot, j2), w2) ->
    oracle (anti_captcha_key config) (anti_captcha_soft_id config)
           (resp_content shot) w2 = (Unsolved, w3) ->
    exists st',
      authenticate st = (Ok None, st') /\
      exchanges _ st' =
        exchanges _ st ++
        [ (mkrequest GET (base_url config) [] [], Ok page);
          (mkrequest GET src [] [], Ok shot) ] /\
      session_id _ st' = session_id _ st.
Proof.
  intros st page j1 w1 img src shot j2 w2 w3 Hpage Himg Hsrc Hshot Horacle.
  unfold _authenticate, bind, log, cookies_clear, set_cookies, session_get,
    send, lift, subscript, write_captcha_png, solve_and_return_solution, ret.
  simpl. rewrite Hpage. simpl. rewrite Himg, Hsrc. simpl.
  rewrite Hshot. simpl. rewrite Horacle. simpl.
  eexists. split; [reflexivity|]. simpl.
  split; [rewrite <- app_assoc; reflexivity | reflexivity].
Qed.

(** C2, as the code has it.  A run of the negotiation that returns leaves the
    token of the configuration as it was, and returns a token only when the
    URL of the response to the login form held [protocols.php], the token
    being the session cookie; in every other case it returns [None].  The
    constructor then stores what the negotiation returned in the
    configuration, a token or [None] alike: after a failed authentication the
    configured token is the [None] (or the empty token) that came back, and
    the constructor raises. *)
Theorem authentication_result_is_stored :
  (forall (st : state World) r st',
     authenticate st = (Ok r, st') ->
     session_id _ st' = session_id _ st /\
     forall token, r = Some token ->
       exists before rq rsp,
         exchanges _ st' = before ++ [(rq, Ok rsp)] /\
         req_method rq = POST /\
         req_url rq = base_url config ++ lit "/submit-index.php" /\
         contains (lit "protocols.php") (resp_url rsp) = true /\
         jar_get PHPSESSID (cookies _ st') = Ok (Some token)) /\
  (forall (st : state World) res st',
     init st = (res, st') ->
     (exists s0 s1, probe s0 = (Ok true, s1) /\
        res = Ok tt /\ session_id _ st' = session_id _ st) \/
     (exists s1 r s2,
        authenticate s1 = (Ok r, s2) /\
        session_id _ s1 = session_id _ st /\
        session_id _ st' = r /\
        res = if truthy r then Ok tt else Raise AuthException) \/
     (exists e s0 s1,
        (probe s0 = (Raise e, s1) \/ authenticate s0 = (Raise e, s1)) /\
        res = Raise e /\ session_id _ st' = session_id _ st)).
Proof.
  split.
  - intros st r st' H. split.
    + pose proof (authenticate_keeps_token st) as K. rewrite H in K. exact K.
    + intros token ->. eapply authenticate_token_inv. exact H.
  - intros st res st'. unfold Scrapper_init.
    set (seed := if truthy (session_id _ st)
                 then cookies_set World PHPSESSID
                        (str_of_option (session_id _ st))
                 else ret World tt).
    assert (Hseed : exists s0, seed st = (Ok tt, s0) /\
                      session_id _ s0 = session_id _ st).
    { subst seed. destruct (truthy (session_id _ st));
        eexists; split; reflexivity. }
    destruct Hseed as (s0 & Hseed & Hs0).
    unfold bind at 1. unfold get_session_id at 1.
    unfold bind at 1. fold seed. rewrite Hseed.
    unfold bind at 1.
    pose proof (probe_keeps_token s0) as Kp.
    destruct (probe s0) as [[b|e] s1] eqn:Hprobe; simpl in Kp |- *;
      [destruct b; simpl|].
    + intros H. unfold ret in H. injection H as <- <-.
      left. exists s0, s1. repeat split; congruence.
    + unfold bind at 1.
      pose proof (authenticate_keeps_token s1) as Ka.
      destruct (authenticate s1) as [[r|e] s2] eqn:Hauth; simpl in Ka |- *.
      * unfold bind, set_session_id, get_session_id; simpl.
        intros H. right. left. exists s1, r, s2.
        split; [exact Hauth|]. split; [congruence|].
        destruct (truthy r); unfold ret, raise in H; simpl in H;
          injection H as <- <-; split; reflexivity.
      * intros H. injection H as <- <-. right. right. exists e, s1, s2.
        split; [right; exact Hauth|]. split; [reflexivity | congruence].
    + intros H. injection H as <- <-. right. right. exists e, s0, s1.
      split; [left; exact Hprobe|]. split; [reflexivity | congruence].
Qed.

End Authentication.

(** ** Floats: the sign of a parsed amount *)

Section FloatSign.

Import PyFloat.

(** [x] is not a negative number: a zero, a positive number, an infinity or
    a NaN. *)
Local Notation "'not_negative' x" :=
  (forall m e, x <> S754_finite true m e) (at level 10, x at level 9).

Lemma binary_round_aux_sign s mx ex lx s' m e :
  binary_round_aux prec emax s mx ex lx = S754_finite s' m e -> s' = s.
Proof.
  unfold binary_round_aux.
  destruct (shr_fexp prec emax mx ex lx) as [mrs' e'].
  destruct (shr_fexp prec emax _ e' loc_Exact) as [mrs'' e''].
  destruct (shr_m mrs''); try discriminate.
  destruct (e'' <=? emax - prec); try discriminate.
  intros H. inversion H. reflexivity.
Qed.

Lemma of_decimal_not_negative d e : not_negative (of_decimal false d e).
Proof.
  intros m e' H. unfold of_decimal in H.
  destruct d as [|p|p]; try discriminate.
  destruct (0 <=? e).
  - unfold binary_round in H.
    destruct (shl_align _ _ _) as [mz ez].
    apply binary_round_aux_sign in H. discriminate.
  - unfold SFdiv in H.
    destruct (SFdiv_core_binary _ _ _ _ _ _) as [[mz ez] lz].
    apply binary_round_aux_sign in H. discriminate.
Qed.

Lemma mul_hundred_not_negative x :
  not_negative x -> not_negative (mul x (of_int 100)).
Proof.
  intros Hx m e H.
  change (of_int 100) with (S754_finite false 7036874417766400 (-46)) in H.
  destruct x as [s|s| |s mx ex]; simpl in H; try discriminate.
  apply binary_round_aux_sign in H.
  destruct s; [|discriminate].
  exact (Hx mx ex eq_refl).
Qed.

Lemma ceil_not_negative x n :
  not_negative x -> ceil x = Ok n -> 0 <= n.
Proof.
  intros Hx. destruct x as [s|s| |s m e]; unfold ceil; try discriminate.
  - intros H. inversion H. lia.
  - destruct s; [exfalso; exact (Hx m e eq_refl)|].
    intros H. inversion H; subst; clear H.
    destruct (0 <=? e) eqn:He.
    + apply Z.leb_le in He.
      change (0 <= Z.pos m * 2 ^ e).
      apply Z.mul_nonneg_nonneg; [lia | apply Z.pow_nonneg; lia].
    + apply Z.leb_gt in He.
      assert (Hp : 0 < 2 ^ (- e)) by (apply Z.pow_pos_nonneg; lia).
      assert (- Z.pos m / 2 ^ (- e) <= 0).
      { apply Z.div_le_upper_bound; [exact Hp | lia]. }
      change (0 <= - (- Z.pos m / 2 ^ (- e))). lia.
Qed.

(** *** The characters of the string that reach the parser *)

Local Notation "'no_minus' s" := (Forall (fun c : N => c <> 45%N) s)
  (at level 10, s at level 9).

Lemma transform_no_minus s : no_minus s -> no_minus (transform s).
Proof.
  intros H. unfold transform.
  destruct (forallb _ s); [exact H|].
  induction H as [|c s Hc _ IH]; cbn [transform_loop]; [constructor|].
  destruct (N.ltb c 127); [constructor; assumption|].
  destruct (unicode_isspace c); [constructor; [discriminate | assumption]|].
  destruct (unicode_decimal c) as [d|].
  - constructor; [lia | assumption].
  - constructor; [discriminate | constructor].
Qed.

Lemma drop_underscores_no_minus s :
  forall prev s1,
    drop_underscores prev s = Some s1 -> no_minus s -> no_minus s1.
Proof.
  induction s as [|c s IH]; simpl; intros prev s1 H Hs.
  - destruct (N.eqb prev 95); inversion H. constructor.
  - inversion Hs as [|? ? Hc Hs']; subst.
    destruct (N.eqb c 95).
    + destruct (is_digit prev); [eapply IH; eassumption | discriminate].
    + destruct (N.eqb prev 95 && negb (is_digit c))%bool; [discriminate|].
      destruct (drop_underscores c s) as [s2|] eqn:E; [|discriminate].
      inversion H; subst. constructor; [exact Hc | eapply IH; eassumption].
Qed.

Lemma without_underscores_no_minus s s1 :
  without_underscores s = Some s1 -> no_minus s -> no_minus s1.
Proof.
  unfold without_underscores. destruct (existsb _ s).
  - apply drop_underscores_no_minus.
  - intros H. inversion H. auto.
Qed.

Lemma lstrip_no_minus s : no_minus s -> no_minus (lstrip s).
Proof.
  induction 1 as [|c s Hc Hs IH]; simpl; [constructor|].
  destruct (c_isspace c); [exact IH | constructor; assumption].
Qed.

Lemma rev_no_minus s : no_minus s -> no_minus (rev s).
Proof.
  intros H. apply Forall_forall. intros c Hin.
  apply in_rev in Hin. rewrite Forall_forall in H. exact (H c Hin).
Qed.

Lemma strip_no_minus s : no_minus s -> no_minus (strip s).
Proof.
  intros H. unfold strip.
  apply rev_no_minus, lstrip_no_minus, rev_no_minus, lstrip_no_minus, H.
Qed.

Lemma take_sign_no_minus s : no_minus s -> fst (take_sign s) = false.
Proof.
  intros H. destruct H as [|c s Hc _]; [reflexivity|].
  unfold take_sign.
  destruct c as [|p]; [reflexivity|].
  do 6 (destruct p as [p|p|]; try reflexivity).
  all: try (exfalso; apply Hc; reflexivity).
Qed.

Lemma parse_number_not_negative s x rest :
  no_minus s -> parse_number s = Some (x, rest) -> not_negative x.
Proof.
  intros Hs. unfold parse_number.
  pose proof (take_sign_no_minus s Hs) as Hsign.
  destruct (take_sign s) as [neg s1]. simpl in Hsign. subst neg.
  destruct (take_digits 0 0 s1) as [[ip n_int] s2].
  destruct (match s2 with 46%N :: r => _ | _ => _ end) as [[d n_all] s3].
  destruct (n_all =? 0); [discriminate|].
  destruct (take_exponent s3) as [e s4].
  intros H. inversion H; subst. apply of_decimal_not_negative.
Qed.

Lemma parse_inf_or_nan_not_negative s x rest :
  parse_inf_or_nan s = Some (x, rest) -> not_negative x.
Proof.
  unfold parse_inf_or_nan. destruct (take_sign s) as [neg s1].
  destruct (ci_match (lit "inf") s1) as [r|].
  - destruct (ci_match (lit "inity") r); intros H; inversion H; discriminate.
  - destruct (ci_match (lit "nan") s1); intros H; inversion H; discriminate.
Qed.

(** [float(s)] of a string without a minus sign is not a negative number. *)
Lemma of_str_not_negative s x :
  no_minus s -> of_str s = Ok x -> not_negative x.
Proof.
  intros Hs. unfold of_str.
  destruct (without_underscores (transform s)) as [s1|] eqn:E1;
    [|discriminate].
  assert (H2 : no_minus (strip s1)).
  { apply strip_no_minus. eapply without_underscores_no_minus; [exact E1|].
    apply transform_no_minus, Hs. }
  destruct (parse_number (strip s1)) as [[y [|c r]]|] eqn:E2;
    try discriminate.
  - intros H. inversion H; subst.
    eapply parse_number_not_negative; eassumption.
  - destruct (parse_inf_or_nan (strip s1)) as [[y [|c r]]|] eqn:E3;
      try discriminate.
    intros H. inversion H; subst.
    eapply parse_inf_or_nan_not_negative; eassumption.
Qed.

End FloatSign.

(** ** The row extractor *)

Section RowExtractor.

Variable World : Type.

Local Notation "'info'" := (_get_protocol_info World).

Ltac bind_inv H a s Ha :=
  apply bind_ok_inv in H; destruct H as (a & s & Ha & H).

Ltac lift_inv H :=
  apply lift_ok_inv in H; destruct H as [H ?]; subst.

(** What a run of [_get_protocol_info] that returns has read, and that it
    has done no more than send one record to the logger. *)
Lemma get_protocol_info_inv row (st : state World) p st' :
  info row st = (Ok p, st') ->
  let cols := find_all is_col row in
  exists c1 c2 c3 c4 c6,
    index cols 1 = Ok c1 /\ index cols 2 = Ok c2 /\ index cols 3 = Ok c3 /\
    index cols 4 = Ok c4 /\ index cols 6 = Ok c6 /\
    index (map own_text (filter is_str (descendants c1))) 0
      = Ok (protocol_number p) /\
    index (map own_text (filter is_str (descendants c1))) 1
      = Ok (car_state_number p) /\
    format_date c2 = Ok (date p) /\
    violation_code p = text c3 /\
    format_money_element c4 = Ok (amount p) /\
    status p = format_status c6 /\
    media p = default_media /\
    cookies _ st' = cookies _ st /\ world _ st' = world _ st /\
    session_id _ st' = session_id _ st /\ exchanges _ st' = exchanges _ st.
Proof.
  intros H cols. unfold _get_protocol_info in H. fold cols in H.
  bind_inv H c1 s1 H1. lift_inv H1.
  bind_inv H n1 s2 H2. lift_inv H2.
  bind_inv H n0 s3 H3. lift_inv H3.
  bind_inv H u s4 H4. unfold log in H4. inversion H4; subst; clear H4.
  bind_inv H c2 s5 H5. lift_inv H5.
  bind_inv H d s6 H6. lift_inv H6.
  bind_inv H c3 s7 H7. lift_inv H7.
  bind_inv H c4 s8 H8. lift_inv H8.
  bind_inv H a s9 H9. lift_inv H9.
  bind_inv H c6 s10 H10. lift_inv H10.
  unfold ret in H. inversion H; subst; clear H. simpl.
  exists c1, c2, c3, c4, c6. repeat split; assumption.
Qed.

(** C5.  The classification of the status text is a total function with
    three values and no exception: the text of the tag is the "paid on time"
    text and the status is [PAID_ON_TIME], or it is the "unpaid" text and the
    status is [UNPAID], or it is neither and the status is [UNKNOWN]; so it
    is for the empty text. *)
Theorem format_status_classifies :
  forall tag,
    ((text tag = TEXT_PAID_ON_TIME /\ format_status tag = PAID_ON_TIME) \/
     (text tag = TEXT_UNPAID /\ format_status tag = UNPAID) \/
     (text tag <> TEXT_PAID_ON_TIME /\ text tag <> TEXT_UNPAID /\
      format_status tag = UNKNOWN)) /\
    (text tag = [] -> format_status tag = UNKNOWN).
Proof.
  intros tag. unfold format_status. split.
  - destruct (PyStr.eqb (text tag) TEXT_PAID_ON_TIME) eqn:E1.
    + left. apply pystr_eqb_eq in E1. split; [exact E1 | reflexivity].
    + right. apply pystr_eqb_neq in E1.
      destruct (PyStr.eqb (text tag) TEXT_UNPAID) eqn:E2.
      * left. apply pystr_eqb_eq in E2. split; [exact E2 | reflexivity].
      * right. apply pystr_eqb_neq in E2. repeat split; assumption.
  - intros ->. reflexivity.
Qed.

(** C7.  Scenario A: a row whose identifier column has the text fragments
    [0001122] and [AA-001-BB] first, whose date column starts with the text
    [01.05.2023], whose violation column has the text [K-5], whose amount
    column holds the one text [15.50GEL] and whose status column has the
    "unpaid" text gives the Protocol [0001122], [AA-001-BB], 1 May 2023,
    [K-5], 1550, [UNPAID]. *)
Theorem scenario_A_protocol :
  forall row (st : state World) c0 c1 c2 c3 c4 c5 c6 more fragments
         first others,
    find_all is_col row = c0 :: c1 :: c2 :: c3 :: c4 :: c5 :: c6 :: more ->
    map own_text (filter is_str (descendants c1))
      = lit "0001122" :: lit "AA-001-BB" :: fragments ->
    descendants c2 = first :: others ->
    text first = lit "01.05.2023" ->
    text c3 = lit "K-5" ->
    descendants c4 = [Text (lit "15.50GEL")] ->
    text c6 = TEXT_UNPAID ->
    fst (info row st)
      = Ok (mkProtocol (lit "0001122") (lit "AA-001-BB") (mkdate 2023 5 1)
                       (lit "K-5") 1550 UNPAID []).
Proof.
  intros row st c0 c1 c2 c3 c4 c5 c6 more fragments first others
         Hcols Hids Hdate Hday Hcode Hmoney Hpaid.
  assert (Hd : format_date c2 = Ok (mkdate 2023 5 1)).
  { unfold format_date. rewrite Hdate. simpl. rewrite Hday.
    vm_compute. reflexivity. }
  assert (Hm : format_money_element c4 = Ok 1550).
  { unfold format_money_element. rewrite Hmoney. vm_compute. reflexivity. }
  assert (Hs : format_status c6 = UNPAID).
  { unfold format_status. rewrite Hpaid. vm_compute. reflexivity. }
  unfold _get_protocol_info. rewrite Hcols.
  unfold bind, lift, log, ret, index. simpl nth_error. cbv iota beta.
  rewrite Hids. simpl nth_error. cbv iota beta.
  rewrite Hd, Hm, Hs, Hcode. reflexivity.
Qed.

(** C3, as the code has it.  The amount of a Protocol the row extractor
    returns is the integer [format_money_element] gives for the amount
    column: it is 0 when the column has nothing below it, and it is not
    negative when the first thing below the column is a text that, its last
    four characters dropped, holds no minus sign.  (A column whose first
    descendant is no number makes the extractor raise.) *)
Theorem amount_of_row :
  forall row (st : state World) p st',
    info row st = (Ok p, st') ->
    exists c4,
      index (find_all is_col row) 4 = Ok c4 /\
      format_money_element c4 = Ok (amount p) /\
      (descendants c4 = [] -> amount p = 0) /\
      (forall s rest,
         descendants c4 = Text s :: rest ->
         existsb (N.eqb 45) (drop_last 4 s) = false ->
         0 <= amount p).
Proof.
  intros row st p st' H.
  apply get_protocol_info_inv in H.
  destruct H as (c1 & c2 & c3 & c4 & c6 & _ & _ & _ & H4 & _ & _ & _ & _ &
                 _ & Hm & _).
  exists c4. split; [exact H4|]. split; [exact Hm|]. split.
  - intros Hd. unfold format_money_element in Hm. rewrite Hd in Hm.
    inversion Hm. reflexivity.
  - intros s rest Hd Hno.
    unfold format_money_element in Hm. rewrite Hd in Hm. simpl in Hm.
    destruct (PyFloat.of_str (drop_last 4 s)) as [x|e] eqn:Ex;
      [|discriminate]. simpl in Hm.
    eapply ceil_not_negative; [|exact Hm].
    apply mul_hundred_not_negative.
    eapply of_str_not_negative; [|exact Ex].
    apply Forall_forall. intros c Hin Hc. subst c.
    assert (existsb (N.eqb 45) (drop_last 4 s) = true).
    { apply existsb_exists. exists 45%N. split; [exact Hin | reflexivity]. }
    congruence.
Qed.

End RowExtractor.

(** ** The pipeline *)

Section Pipeline.

Variable World : Type.
Variable transport : request -> jar -> World -> result (response * jar) * World.
Variable html_parser : pystr -> node.
Variable markup : node -> pystr.
Variable config : Config.

Local Notation "'info'" := (_get_protocol_info World).
Local Notation "'media_of'" :=
  (_get_protocol_media World transport html_parser markup config).
Local Notation "'blob_of'" :=
  (create_media_blob World transport markup config).
Local Notation "'process'" :=
  (process_protocol_row World transport html_parser markup config).
Local Notation "'protocols'" :=
  (get_protocols World transport html_parser markup config).
Local Notation "'fetch'" := (fun url => mkrequest GET url [] []).

Ltac bind_inv H a s Ha :=
  apply bind_ok_inv in H; destruct H as (a & s & Ha & H).

Ltac lift_inv H :=
  apply lift_ok_inv in H; destruct H as [H ?]; subst.

(** [get_protocols] is the fetch of the listing, then the rows in order. *)
Lemma get_protocols_unfold (st : state World) page j w rows :
  transport (fetch (base_url config ++ lit "/protocols.php"))
            (cookies _ st) (world _ st) = (Ok (page, j), w) ->
  listing_rows (html_parser (resp_text page)) = Ok rows ->
  protocols st
    = mapM World process rows (listing_fetched World config st page j w).
Proof.
  intros Hpage Hrows.
  unfold get_protocols, bind, log, session_get, send, lift. simpl.
  rewrite Hpage. simpl. rewrite Hrows. reflexivity.
Qed.

(** The media of a detail page: one for each placeholder of its wrapper. *)
Lemma get_protocol_media_inv href (s : state World) ms s' :
  media_of href s = (Ok ms, s') ->
  exists page j w wrapper,
    transport (fetch (base_url config ++ lit "/" ++ href))
              (cookies _ s) (world _ s) = (Ok (page, j), w) /\
    media_wrapper (html_parser (resp_text page)) = Ok wrapper /\
    length ms = length (placeholders wrapper).
Proof.
  unfold _get_protocol_media. intros H.
  bind_inv H u s1 H1. unfold log in H1. inversion H1; subst; clear H1.
  bind_inv H page s2 H2. unfold session_get, send in H2. simpl in H2.
  destruct (transport _ (cookies _ s) (world _ s)) as [[[rsp j]|e] w] eqn:Ht;
    inversion H2; subst; clear H2.
  bind_inv H wrapper s3 H3. lift_inv H3.
  exists page, j, w, wrapper. split; [reflexivity|]. split; [exact H3|].
  apply mapM_ok_forall2 in H. apply Forall2_length in H. symmetry. exact H.
Qed.

(** What a row that was processed has given. *)
Lemma process_protocol_row_inv row (s : state World) p s' :
  process row s = (Ok p, s') ->
  match Soup.find is_link row with
  | None => media p = []
  | Some link =>
      exists href page j w wrapper,
        attr (lit "href") link = Ok href /\
        transport (fetch (base_url config ++ lit "/" ++ href))
                  (cookies _ s) (world _ s) = (Ok (page, j), w) /\
        media_wrapper (html_parser (resp_text page)) = Ok wrapper /\
        length (media p) = length (placeholders wrapper)
  end.
Proof.
  unfold process_protocol_row.
  destruct (Soup.find is_link row) as [link|]; intros H.
  - bind_inv H p0 s1 H1. bind_inv H href s2 H2. lift_inv H2.
    bind_inv H ms s3 H3. unfold ret in H. inversion H; subst; clear H.
    apply get_protocol_info_inv in H1.
    destruct H1 as (c1 & c2 & c3 & c4 & c6 & _ & _ & _ & _ & _ & _ & _ &
                    _ & _ & _ & _ & _ & Hc & Hw & _).
    apply get_protocol_media_inv in H3.
    destruct H3 as (page & j & w & wrapper & Ht & Hwr & Hlen).
    rewrite Hc, Hw in Ht.
    exists href, page, j, w, wrapper. repeat split; assumption.
  - apply get_protocol_info_inv in H.
    destruct H as (c1 & c2 & c3 & c4 & c6 & _ & _ & _ & _ & _ & _ & _ &
                   _ & _ & _ & _ & Hm & _).
    exact Hm.
Qed.

(** C6.  With the listing fetched and its rows found, a run of
    [get_protocols] that returns gives one Protocol for each row of the
    grid, in the order of the rows: the Protocol at a position is what
    [process_protocol_row] returned for the row at that position, with a
    detail link or without.  It returns whenever every row can be
    processed. *)
Theorem get_protocols_one_per_row :
  forall (st : state World) page j w rows,
    transport (fetch (base_url config ++ lit "/protocols.php"))
              (cookies _ st) (world _ st) = (Ok (page, j), w) ->
    listing_rows (html_parser (resp_text page)) = Ok rows ->
    (forall ps st',
       protocols st = (Ok ps, st') ->
       length ps = length rows /\
       Forall2 (fun row p => exists s s', process row s = (Ok p, s'))
               rows ps) /\
    ((forall row, In row rows ->
        forall s, exists p s', process row s = (Ok p, s')) ->
     exists ps st', protocols st = (Ok ps, st')).
Proof.
  intros st page j w rows Hpage Hrows.
  rewrite (get_protocols_unfold st page j w rows Hpage Hrows). split.
  - intros ps st' H. apply mapM_ok_forall2 in H. split.
    + symmetry. eapply Forall2_length. exact H.
    + exact H.
  - intros Hall. apply mapM_total. exact Hall.
Qed.

(** C4, as the code has it.  In the Protocols [get_protocols] returns, the
    Protocol of a row without a detail link has no media, and the Protocol
    of a row with a link has as many media as the wrapper of the detail
    page, fetched at the address of the link, has [div] elements among its
    children; the other children of the wrapper, texts and elements of
    another name, are not counted. *)
Theorem media_follow_the_detail_link :
  forall (st : state World) page j w rows ps st',
    transport (fetch (base_url config ++ lit "/protocols.php"))
              (cookies _ st) (world _ st) = (Ok (page, j), w) ->
    listing_rows (html_parser (resp_text page)) = Ok rows ->
    protocols st = (Ok ps, st') ->
    Forall2
      (fun row p =>
         match Soup.find is_link row with
         | None => media p = []
         | Some link =>
             exists href s detail_page j' w' wrapper,
               attr (lit "href") link = Ok href /\
               transport (fetch (base_url config ++ lit "/" ++ href))
                         (cookies _ s) (world _ s)
                 = (Ok (detail_page, j'), w') /\
               media_wrapper (html_parser (resp_text detail_page))
                 = Ok wrapper /\
               length (media p) = length (placeholders wrapper)
         end)
      rows ps.
Proof.
  intros st page j w rows ps st' Hpage Hrows H.
  rewrite (get_protocols_unfold st page j w rows Hpage Hrows) in H.
  apply mapM_ok_forall2 in H.
  eapply Forall2_impl; [|exact H].
  intros row p (s & s' & Hp). apply process_protocol_row_inv in Hp.
  destruct (Soup.find is_link row) as [link|]; [|exact Hp].
  destruct Hp as (href & dp & j' & w' & wrapper & Hp).
  exists href, s, dp, j', w', wrapper. exact Hp.
Qed.

(** A placeholder without an image and without the audio reference makes
    [create_media_blob] raise, in any state. *)
Lemma create_media_blob_raises tag (s : state World) :
  Soup.find (named (lit "img")) tag = None ->
  Regex.search_oggvideo (markup tag) = None ->
  blob_of tag s = (Raise AttributeError, s).
Proof.
  intros Himg Hogg.
  unfold create_media_blob, bind, lift, media_reference.
  rewrite Himg, Hogg. reflexivity.
Qed.

Lemma mapM_raises_in {A B} (f : A -> M World B) a l :
  (forall s, exists e s', f a s = (Raise e, s')) ->
  In a l ->
  forall s, exists e s', mapM World f l s = (Raise e, s').
Proof.
  intros Ha. induction l as [|x l IH]; intros Hin s; [contradiction|].
  simpl. destruct (f x s) as [[b|e] s1] eqn:Hx.
  - destruct Hin as [->|Hin].
    + destruct (Ha s) as (e & s' & He). congruence.
    + destruct (IH Hin s1) as (e & s' & He).
      exists e, s'. rewrite (bind_ok _ _ _ _ _ _ Hx).
      apply bind_raise. exact He.
  - exists e, s1. apply bind_raise. exact Hx.
Qed.

Lemma get_protocol_media_raises href (s : state World) page j w wrapper tag :
  transport (fetch (base_url config ++ lit "/" ++ href))
            (cookies _ s) (world _ s) = (Ok (page, j), w) ->
  media_wrapper (html_parser (resp_text page)) = Ok wrapper ->
  In tag (placeholders wrapper) ->
  Soup.find (named (lit "img")) tag = None ->
  Regex.search_oggvideo (markup tag) = None ->
  exists e s', media_of href s = (Raise e, s').
Proof.
  intros Hpage Hwrap Hin Himg Hogg.
  unfold _get_protocol_media, bind at 1, log.
  unfold bind at 1, session_get, send. cbn [cookies world]. rewrite Hpage.
  unfold bind at 1, lift. rewrite Hwrap.
  apply mapM_raises_in with (a := tag); [|exact Hin].
  intros s0. exists AttributeError, s0.
  apply create_media_blob_raises; assumption.
Qed.

(** C10, as the code has it.  When the rows before a row have been
    processed, the row has a detail link, and the wrapper of the detail page
    of the link has among its children a [div] with no image below it whose
    markup has no match for the audio reference, the media extraction raises
    and the run of [get_protocols] ends with an exception: no Protocol is
    returned.  (A child of the wrapper that is not a [div] is not
    visited.) *)
Theorem unresolvable_placeholder_aborts :
  forall (st : state World) page j w pre row post ps s2
         link href detail_page j2 w2 wrapper tag,
    transport (fetch (base_url config ++ lit "/protocols.php"))
              (cookies _ st) (world _ st) = (Ok (page, j), w) ->
    listing_rows (html_parser (resp_text page)) = Ok (pre ++ row :: post) ->
    mapM World process pre (listing_fetched World config st page j w)
      = (Ok ps, s2) ->
    Soup.find is_link row = Some link ->
    attr (lit "href") link = Ok href ->
    transport (fetch (base_url config ++ lit "/" ++ href))
              (cookies _ s2) (world _ s2) = (Ok (detail_page, j2), w2) ->
    media_wrapper (html_parser (resp_text detail_page)) = Ok wrapper ->
    In tag (placeholders wrapper) ->
    Soup.find (named (lit "img")) tag = None ->
    Regex.search_oggvideo (markup tag) = None ->
    (exists e s', media_of href s2 = (Raise e, s')) /\
    (exists e st', protocols st = (Raise e, st')).
Proof.
  intros st page j w pre row post ps s2 link href dp j2 w2 wrapper tag
         Hpage Hrows Hpre Hlink Hhref Hdp Hwrap Hin Himg Hogg.
  split.
  - eapply get_protocol_media_raises; eassumption.
  - rewrite (get_protocols_unfold st page j w _ Hpage Hrows).
    assert (Hrow : exists e s', process row s2 = (Raise e, s')).
    { unfold process_protocol_row. rewrite Hlink.
      destruct (info link s2) as [[p0|e] s3] eqn:Hinfo.
      - rewrite (bind_ok _ _ _ _ _ _ Hinfo).
        unfold bind at 1, lift. rewrite Hhref.
        apply get_protocol_info_inv in Hinfo.
        destruct Hinfo as (c1 & c2 & c3 & c4 & c6 & _ & _ & _ & _ & _ & _ &
                           _ & _ & _ & _ & _ & _ & Hc & Hw & _).
        rewrite <- Hc, <- Hw in Hdp.
        destruct (get_protocol_media_raises href s3 dp j2 w2 wrapper tag
                    Hdp Hwrap Hin Himg Hogg) as (e & s' & He).
        exists e, s'. apply bind_raise. exact He.
      - exists e, s3. apply bind_raise. exact Hinfo. }
    destruct Hrow as (e & s' & He).
    exists e, s'. eapply mapM_raise_at; eassumption.
Qed.

End Pipeline.

(* ========================================================================= *)
(** * Examples: the properties at work on the small portal *)

(** C1.  The amount column with the text [1.10XXXX]: the specification asks
    for [ceil(1.10 * 100) = 110], and [format_money_element] gives 111,
    because the binary64 product of [float("1.10")] and 100 lies above 110.
    The two amounts of the specification, [10.00XXXX] and [10.001XXXX], do
    give 1000 and 1001; a text with more digits than a binary64 holds is
    rounded down, 1000 for [10.000000000000000001XXXX] where the
    specification asks for 1001. *)
Theorem amount_of_1_10_is_111 :
  format_money_element (Demo.col [Text (lit "10.00XXXX")]) = Ok 1000 /\
  format_money_element (Demo.col [Text (lit "10.001XXXX")]) = Ok 1001 /\
  format_money_element (Demo.col [Text (lit "1.10XXXX")]) = Ok 111 /\
  SpecAmount.ceil_of_hundredfold (lit "1.10XXXX") = Some 110 /\
  format_money_element
    (Demo.col [Text (lit "10.000000000000000001XXXX")]) = Ok 1000 /\
  SpecAmount.ceil_of_hundredfold (lit "10.000000000000000001XXXX")
    = Some 1001.
Proof. vm_compute. repeat split; reflexivity. Qed.

(** The product behind the 111: [float("1.10")] is [4953959590107546 * 2^-52]
    and its product with 100 is [7740561859543041 * 2^-46], one unit in the
    last place above 110. *)
Lemma product_of_1_10_and_100 :
  PyFloat.of_str (lit "1.10") = Ok (S754_finite false 4953959590107546 (-52)) /\
  PyFloat.mul (S754_finite false 4953959590107546 (-52)) (PyFloat.of_int 100)
    = S754_finite false 7740561859543041 (-46) /\
  7740561859543041 = 110 * 2 ^ 46 + 1.
Proof. vm_compute. repeat split; reflexivity. Qed.

(** The amount is read from the first descendant of the column, whatever it
    is: a number that stands inside an element of the column is not reached,
    the slice of the element raises. *)
Lemma amount_inside_an_element_raises :
  format_money_element
    (Demo.col [Demo.tag "b" [] [] [Text (lit "10.00XXXX")]])
    = Raise TypeError.
Proof. reflexivity. Qed.

(** C8 at work: a session the portal does not know is redirected to the
    login page, and the probe answers [False]. *)
Lemma is_authenticated_iff_final_url_witness :
  fst (_is_authenticated Demo.World Demo.transport Demo.config
         (Demo.start None Unsolved)) = Ok false
  <-> lit "http://portal/index.php" <> lit "http://portal/protocols.php".
Proof.
  exact (proj2 (is_authenticated_iff_final_url
                  Demo.World Demo.transport Demo.config
                  (Demo.start None Unsolved)
                  (Demo.page (lit "http://portal/index.php") (lit "login"))
                  [] Unsolved eq_refl)).
Defined.

(** C9 at work: the oracle gives no solution. *)
Lemma captcha_failure_short_circuits_witness :
  exists st',
    _authenticate Demo.World Demo.transport Demo.oracle Demo.html_parser
                  Demo.config (Demo.start (Some (lit "stale")) Unsolved)
      = (Ok None, st') /\
    exchanges _ st' =
      [ (mkrequest GET (lit "http://portal") [] [],
         Ok (Demo.page (lit "http://portal") (lit "login")));
        (mkrequest GET (lit "http://portal/captcha.php") [] [],
         Ok (mkresponse (lit "http://portal/captcha.php") []
                        [Byte.x89; Byte.x50; Byte.x4e; Byte.x47])) ] /\
    session_id _ st' = Some (lit "stale").
Proof.
  exact (captcha_failure_short_circuits
           Demo.World Demo.transport Demo.oracle Demo.html_parser Demo.config
           (Demo.start (Some (lit "stale")) Unsolved)
           (Demo.page (lit "http://portal") (lit "login")) [] Unsolved
           (Demo.tag "img" [(lit "id", lit "captcha_code_img");
                            (lit "src", lit "http://portal/captcha.php")] [] [])
           (lit "http://portal/captcha.php")
           (mkresponse (lit "http://portal/captcha.php") []
                       [Byte.x89; Byte.x50; Byte.x4e; Byte.x47])
           [] Unsolved Unsolved
           eq_refl eq_refl eq_refl eq_refl eq_refl).
Defined.

(** C2 refuted as it is worded: the configuration holds the token [stale],
    the portal does not know it and the oracle gives no solution.  The
    negotiation returns [None]; the constructor raises, and the token of the
    configuration is no longer [stale] but [None]. *)
Lemma failed_authentication_erases_token :
  session_id _ (Demo.start (Some (lit "stale")) Unsolved)
    = Some (lit "stale") /\
  fst (_authenticate Demo.World Demo.transport Demo.oracle Demo.html_parser
         Demo.config (Demo.start (Some (lit "stale")) Unsolved)) = Ok None /\
  fst (Demo.run_init (Some (lit "stale")) Unsolved) = Raise AuthException /\
  session_id _ (snd (Demo.run_init (Some (lit "stale")) Unsolved)) = None.
Proof. vm_compute. repeat split; reflexivity. Qed.

(** C2 at work: a negotiation that succeeds, and the two runs of the
    constructor, the one above and one with a solved CAPTCHA. *)
Lemma authentication_result_is_stored_witness :
  (exists before rq rsp,
     exchanges _ (snd (_authenticate Demo.World Demo.transport Demo.oracle
                         Demo.html_parser Demo.config
                         (Demo.start None (Solved (lit "xk4f2")))))
       = before ++ [(rq, Ok rsp)] /\
     req_method rq = POST /\
     req_url rq = lit "http://portal" ++ lit "/submit-index.php" /\
     contains (lit "protocols.php") (resp_url rsp) = true /\
     jar_get PHPSESSID
       (cookies _ (snd (_authenticate Demo.World Demo.transport Demo.oracle
                          Demo.html_parser Demo.config
                          (Demo.start None (Solved (lit "xk4f2"))))))
       = Ok (Some (lit "fresh"))) /\
  (exists s1 r s2,
     _authenticate Demo.World Demo.transport Demo.oracle Demo.html_parser
                   Demo.config s1 = (Ok r, s2) /\
     session_id _ s1 = Some (lit "stale") /\
     session_id _ (snd (Demo.run_init (Some (lit "stale")) Unsolved)) = r /\
     Raise AuthException = if truthy r then Ok tt else Raise AuthException).
Proof.
  pose proof (authentication_result_is_stored
                Demo.World Demo.transport Demo.oracle Demo.html_parser
                Demo.config) as [Hauth Hinit].
  split.
  - refine (proj2 (Hauth (Demo.start None (Solved (lit "xk4f2")))
                         (Some (lit "fresh")) _ _) (lit "fresh") eq_refl).
    vm_compute. reflexivity.
  - destruct (Hinit (Demo.start (Some (lit "stale")) Unsolved)
                    (Raise AuthException)
                    (snd (Demo.run_init (Some (lit "stale")) Unsolved)))
      as [(s0 & s1 & _ & Hres & _) | [H | (e & s0 & s1 & Hor & Hres & Hsid)]].
    + vm_compute. reflexivity.
    + discriminate Hres.
    + exact H.
    + exfalso. revert Hsid. vm_compute. discriminate.
Defined.

(** C5 at work: a status column without text. *)
Lemma format_status_classifies_witness :
  text (Demo.col []) = [] /\ format_status (Demo.col []) = UNKNOWN.
Proof.
  split; [reflexivity|].
  exact (proj2 (format_status_classifies (Demo.col [])) eq_refl).
Defined.

(** C7 at work: the row of scenario A. *)
Lemma scenario_A_protocol_witness :
  fst (_get_protocol_info Demo.World Demo.row_A Demo.signed_in)
    = Ok Demo.protocol_A.
Proof.
  refine (scenario_A_protocol Demo.World Demo.row_A Demo.signed_in
            _ _ _ _ _ _ _ _ _ _ _ _ _ _ _ _ _ _);
    vm_compute; reflexivity.
Defined.

(** C3 refuted as it is worded: an amount column with the text [N/A] holds
    no monetary value, and the row extractor raises [ValueError] where the
    claim has it return 0; an amount column with the text [-1.00XXXX] gives
    the amount -100. *)
Lemma amount_can_raise_or_be_negative :
  fst (_get_protocol_info Demo.World (Demo.row_with_amount (lit "N/A"))
         Demo.signed_in) = Raise ValueError /\
  (exists p,
     fst (_get_protocol_info Demo.World
            (Demo.row_with_amount (lit "-1.00XXXX")) Demo.signed_in) = Ok p /\
     amount p = -100).
Proof.
  split; [vm_compute; reflexivity|].
  eexists. split; vm_compute; reflexivity.
Qed.

(** C3 at work: the row of scenario A, and a row with an empty amount
    column. *)
Lemma amount_of_row_witness :
  (exists c4,
     index (find_all is_col Demo.row_A) 4 = Ok c4 /\
     format_money_element c4 = Ok 1550 /\
     (descendants c4 = [] -> 1550 = 0) /\
     (forall s rest,
        descendants c4 = Text s :: rest ->
        existsb (N.eqb 45) (drop_last 4 s) = false ->
        0 <= 1550)) /\
  0 <= 1550.
Proof.
  pose proof (amount_of_row Demo.World Demo.row_A Demo.signed_in
                Demo.protocol_A
                (snd (_get_protocol_info Demo.World Demo.row_A Demo.signed_in))
                eq_refl) as H.
  split; [exact H|].
  destruct H as (c4 & Hc4 & _ & _ & Hpos).
  injection Hc4 as <-.
  exact (Hpos (lit "15.50GEL") [] eq_refl eq_refl).
Defined.

(** Scenario B: nothing below the amount column, the amount is 0. *)
Lemma amount_of_empty_column :
  option_map amount
    (match fst (_get_protocol_info Demo.World Demo.row_without_amount
                  Demo.signed_in) with
     | Ok p => Some p
     | Raise _ => None
     end) = Some 0.
Proof. vm_compute. reflexivity. Qed.

(** The listing of the small portal, as a signed-in session gets it. *)
Lemma demo_listing_fetched :
  Demo.transport (mkrequest GET (base_url Demo.config ++ lit "/protocols.php")
                            [] [])
                 (cookies _ Demo.signed_in) (world _ Demo.signed_in)
    = (Ok (Demo.page Demo.listing_url (lit "listing"),
           cookies _ Demo.signed_in), Unsolved).
Proof. reflexivity. Qed.

Lemma demo_rows_process :
  forall row, In row Demo.the_rows ->
  forall s : state Demo.World,
  exists p s',
    process_protocol_row Demo.World Demo.transport Demo.html_parser
                         Demo.markup Demo.config row s = (Ok p, s').
Proof.
  intros row [<-|[<-|[]]] s; eexists; eexists; lazy; reflexivity.
Qed.

(** C6 at work: the listing of two rows, the first with a detail link. *)
Lemma get_protocols_one_per_row_witness :
  exists ps st',
    get_protocols Demo.World Demo.transport Demo.html_parser Demo.markup
                  Demo.config Demo.signed_in = (Ok ps, st') /\
    length ps = length Demo.the_rows /\
    Forall2
      (fun row p =>
         exists s s',
           process_protocol_row Demo.World Demo.transport Demo.html_parser
                                Demo.markup Demo.config row s = (Ok p, s'))
      Demo.the_rows ps.
Proof.
  destruct (get_protocols_one_per_row
              Demo.World Demo.transport Demo.html_parser Demo.markup
              Demo.config Demo.signed_in _ _ _ Demo.the_rows
              demo_listing_fetched eq_refl) as [Hsound Htotal].
  destruct (Htotal demo_rows_process) as (ps & st' & H).
  exists ps, st'. split; [exact H | exact (Hsound ps st' H)].
Defined.

(** C4 at work: the first row has a link to a detail page whose wrapper has
    two placeholders (and a text between them), the second row has no
    link. *)
Lemma media_follow_the_detail_link_witness :
  exists ps st',
    get_protocols Demo.World Demo.transport Demo.html_parser Demo.markup
                  Demo.config Demo.signed_in = (Ok ps, st') /\
    map (fun p => length (media p)) ps = [2%nat; 0%nat] /\
    Forall2
      (fun row p =>
         match Soup.find is_link row with
         | None => media p = []
         | Some link =>
             exists href s detail_page j' w' wrapper,
               attr (lit "href") link = Ok href /\
               Demo.transport
                 (mkrequest GET (base_url Demo.config ++ lit "/" ++ href)
                            [] [])
                 (cookies _ s) (world _ s) = (Ok (detail_page, j'), w') /\
               media_wrapper (Demo.html_parser (resp_text detail_page))
                 = Ok wrapper /\
               length (media p) = length (placeholders wrapper)
         end)
      Demo.the_rows ps.
Proof.
  eexists _, _. split; [vm_compute; reflexivity|].
  split; [reflexivity|].
  refine (media_follow_the_detail_link
            Demo.World Demo.transport Demo.html_parser Demo.markup
            Demo.config Demo.signed_in _ _ _ Demo.the_rows _ _
            demo_listing_fetched eq_refl _).
  vm_compute. reflexivity.
Defined.

(** C10 at work: the portal serves a listing whose second row leads to a
    detail page with a placeholder that holds neither an image nor the
    audio reference. *)
Lemma unresolvable_placeholder_aborts_witness :
  (exists e s',
     _get_protocol_media Demo.World Demo.broken_transport Demo.html_parser
       Demo.markup Demo.config (lit "detail.php?id=2") Demo.after_first_row
     = (Raise e, s')) /\
  (exists e st',
     get_protocols Demo.World Demo.broken_transport Demo.html_parser
                   Demo.markup Demo.config Demo.signed_in = (Raise e, st')).
Proof.
  refine (unresolvable_placeholder_aborts
            Demo.World Demo.broken_transport Demo.html_parser Demo.markup
            Demo.config Demo.signed_in
            Demo.broken_listing_page (cookies _ Demo.signed_in) Unsolved
            [Demo.row_A] (Demo.linked_row (lit "detail.php?id=2")) []
            [Demo.protocol_A] Demo.after_first_row
            (Demo.tag "a" [(lit "href", lit "detail.php?id=2")] []
               (Demo.columns (lit "0002233") (lit "BB-002-CC")
                  (lit "17.11.2022") (lit "K-7") [Text (lit "10.00 GEL")]
                  TEXT_PAID_ON_TIME))
            (lit "detail.php?id=2")
            (Demo.page (lit "http://portal/detail.php?id=2") (lit "detail-2"))
            (cookies _ Demo.signed_in) Unsolved
            (Demo.tag "div" [] [lit "media"]
               [Demo.image_placeholder; Demo.empty_placeholder])
            Demo.empty_placeholder
            eq_refl eq_refl _ eq_refl eq_refl eq_refl eq_refl _ eq_refl
            eq_refl).
  - vm_compute. reflexivity.
  - right. left. reflexivity.
Defined.

(** The exception of that run is the [AttributeError] of the missing
    match. *)
Lemma broken_detail_page_raises_attribute_error :
  fst (get_protocols Demo.World Demo.broken_transport Demo.html_parser
         Demo.markup Demo.config Demo.signed_in) = Raise AttributeError.
Proof. vm_compute. reflexivity. Qed.

(* ========================================================================= *)
(** * Further properties of the scrapper *)

(** ** What a run sends *)

Section Traffic.

Variable World : Type.

Local Notation "'exchange'" := (request * result response)%type.

Lemma appends_bind {A B} (Q1 Q2 Q : list exchange -> Prop)
    (m : M World A) (k : A -> M World B) :
  (forall a b, Q1 a -> Q2 b -> Q (a ++ b)) -> Q2 [] ->
  appends World Q1 m -> (forall x, appends World Q2 (k x)) ->
  appends World Q (bind World m k).
Proof.
  intros Hcat Hnil Hm Hk s. unfold bind.
  destruct (Hm s) as (new1 & E1 & H1).
  destruct (m s) as [[a|e] s1]; simpl in E1 |- *.
  - destruct (Hk a s1) as (new2 & E2 & H2).
    exists (new1 ++ new2). split; [|apply Hcat; assumption].
    rewrite E2, E1, app_assoc. reflexivity.
  - exists new1. split; [exact E1|].
    rewrite <- (app_nil_r new1). apply Hcat; assumption.
Qed.

Lemma appends_weaken {A} (Q1 Q2 : list exchange -> Prop) (m : M World A) :
  (forall l, Q1 l -> Q2 l) -> appends World Q1 m -> appends World Q2 m.
Proof.
  intros Himp Hm s. destruct (Hm s) as (new & E & H).
  exists new. split; [exact E | apply Himp; exact H].
Qed.

(** A step that leaves the exchanges alone adds the empty list. *)
Lemma appends_silent {A} (Q : list exchange -> Prop) (m : M World A) :
  Q [] -> (forall s, exchanges _ (snd (m s)) = exchanges _ s) ->
  appends World Q m.
Proof.
  intros Hnil Hm s. exists []. split; [|exact Hnil].
  rewrite app_nil_r. apply Hm.
Qed.

Lemma appends_send (Q : list exchange -> Prop) transport rq :
  (forall r, Q [(rq, r)]) -> appends World Q (send World transport rq).
Proof.
  intros H s. unfold send.
  destruct (transport rq (cookies _ s) (world _ s)) as [[[rsp j]|e] w];
    simpl; eexists; (split; [reflexivity | apply H]).
Qed.

Lemma appends_mapM {A B} (Q : list exchange -> Prop)
    (f : A -> M World B) l :
  (forall a b, Q a -> Q b -> Q (a ++ b)) -> Q [] ->
  (forall a, appends World Q (f a)) ->
  appends World Q (mapM World f l).
Proof.
  intros Hcat Hnil Hf. induction l as [|a l IH]; simpl.
  - apply appends_silent; [exact Hnil | reflexivity].
  - apply (appends_bind Q Q Q); auto. intros b.
    apply (appends_bind Q Q Q); auto. intros bs.
    apply appends_silent; [exact Hnil | reflexivity].
Qed.

Lemma at_most_app n1 p1 n2 p2 (a b : list exchange) :
  at_most n1 p1 a -> at_most n2 p2 b ->
  at_most (n1 + n2) (p1 + p2) (a ++ b).
Proof.
  unfold at_most, posts. intros [Ha1 Ha2] [Hb1 Hb2].
  rewrite filter_app, !length_app. lia.
Qed.

Lemma at_most_nil n p : at_most n p [].
Proof. unfold at_most, posts. simpl. lia. Qed.

Lemma at_most_bind {A B} n1 p1 n2 p2 (m : M World A) (k : A -> M World B) :
  appends World (at_most n1 p1) m ->
  (forall x, appends World (at_most n2 p2) (k x)) ->
  appends World (at_most (n1 + n2) (p1 + p2)) (bind World m k).
Proof.
  apply appends_bind; [apply at_most_app | apply at_most_nil].
Qed.

Lemma at_most_silent {A} n p (m : M World A) :
  (forall s, exchanges _ (snd (m s)) = exchanges _ s) ->
  appends World (at_most n p) m.
Proof. apply appends_silent, at_most_nil. Qed.

Lemma only_gets_app (a b : list exchange) :
  only_gets a -> only_gets b -> only_gets (a ++ b).
Proof.
  unfold only_gets, posts. intros Ha Hb.
  rewrite filter_app, length_app. lia.
Qed.

End Traffic.

(** ** The constructor and the negotiation, step by step *)

Section Negotiation.

Variable World : Type.
Variable transport : request -> jar -> World -> result (response * jar) * World.
Variable oracle : pystr -> Z -> bytes -> World -> solution * World.
Variable html_parser : pystr -> node.
Variable config : Config.

Local Notation "'authenticate'" :=
  (_authenticate World transport oracle html_parser config).
Local Notation "'probe'" := (_is_authenticated World transport config).
Local Notation "'init'" :=
  (Scrapper_init World transport oracle html_parser config).
Local Notation "'fetch'" := (fun url => mkrequest GET url [] []).
Local Notation "'listing_url'" := (base_url config ++ lit "/protocols.php").
Local Notation "'login_url'" := (base_url config ++ lit "/submit-index.php").

Lemma probe_traffic : appends World (at_most 1 0) probe.
Proof.
  unfold _is_authenticated.
  apply (at_most_bind World 1 0 0 0).
  - apply appends_send. intros r. unfold at_most, posts. simpl. lia.
  - intros rsp. destruct (PyStr.eqb _ _);
      (apply (at_most_bind World 0 0 0 0); [|intros ?]);
      apply at_most_silent; reflexivity.
Qed.

Lemma authenticate_traffic : appends World (at_most 3 1) authenticate.
Proof.
  unfold _authenticate.
  apply (at_most_bind World 0 0 3 1);
    [apply at_most_silent; reflexivity | intros _].
  apply (at_most_bind World 0 0 3 1);
    [apply at_most_silent; reflexivity | intros _].
  apply (at_most_bind World 1 0 2 1);
    [apply appends_send; intros r; unfold at_most, posts; simpl; lia
    | intros page].
  apply (at_most_bind World 0 0 2 1);
    [apply at_most_silent; reflexivity | intros src].
  apply (at_most_bind World 1 0 1 1);
    [apply appends_send; intros r; unfold at_most, posts; simpl; lia
    | intros shot].
  apply (at_most_bind World 0 0 1 1);
    [apply at_most_silent; reflexivity | intros _].
  apply (at_most_bind World 0 0 1 1);
    [apply at_most_silent; reflexivity | intros _].
  apply (at_most_bind World 0 0 1 1).
  { apply at_most_silent. intros s. unfold solve_and_return_solution.
    destruct (oracle _ _ _ _). reflexivity. }
  intros [|captcha_text].
  - apply (at_most_bind World 0 0 1 1); [|intros _];
      apply at_most_silent; reflexivity.
  - apply (at_most_bind World 0 0 1 1);
      [apply at_most_silent; reflexivity | intros _].
    apply (at_most_bind World 0 0 1 1);
      [apply at_most_silent; reflexivity | intros csrf].
    apply (at_most_bind World 1 1 0 0);
      [apply appends_send; intros r; unfold at_most, posts; simpl; lia
      | intros rsp].
    destruct (contains _ _).
    + apply (at_most_bind World 0 0 0 0);
        [apply at_most_silent; reflexivity | intros _].
      apply (at_most_bind World 0 0 0 0);
        [apply at_most_silent; reflexivity | intros sid].
      apply (at_most_bind World 0 0 0 0); [|intros _];
        apply at_most_silent; reflexivity.
    + apply (at_most_bind World 0 0 0 0); [|intros _];
        apply at_most_silent; reflexivity.
Qed.

(** X1.  A run of the constructor, whatever its outcome, sends at most four
    requests, and at most one of them is a [POST]: the probe, and then at
    most one negotiation, which is never tried again. *)
Theorem init_sends_at_most_four_requests :
  forall st : state World,
  exists new,
    exchanges _ (snd (init st)) = exchanges _ st ++ new /\
    (length new <= 4)%nat /\ (posts new <= 1)%nat.
Proof.
  assert (H : appends World (at_most 4 1) init).
  { unfold Scrapper_init.
    apply (at_most_bind World 0 0 4 1);
      [apply at_most_silent; reflexivity | intros configured].
    apply (at_most_bind World 0 0 4 1).
    { destruct (truthy configured); apply at_most_silent; reflexivity. }
    intros _.
    apply (at_most_bind World 1 0 3 1); [apply probe_traffic | intros b].
    destruct b; simpl; [apply at_most_silent; reflexivity|].
    apply (at_most_bind World 3 1 0 0);
      [apply authenticate_traffic | intros token].
    apply (at_most_bind World 0 0 0 0);
      [apply at_most_silent; reflexivity | intros _].
    apply (at_most_bind World 0 0 0 0);
      [apply at_most_silent; reflexivity | intros stored].
    destruct (truthy stored); apply at_most_silent; reflexivity. }
  intros st. destruct (H st) as (new & E & Hn & Hp).
  exists new. repeat split; assumption.
Qed.

(** X2.  When the portal answers the probe from the address that was asked
    for, the constructor returns after that one request: it does not
    negotiate, and the token of the configuration is as it was.  The probe
    goes out with the configured token, if there is one, as the cookie
    [PHPSESSID]. *)
Theorem init_with_valid_session :
  forall (st : state World) rsp j w,
    transport (fetch listing_url)
      (if truthy (session_id _ st)
       then jar_set PHPSESSID (str_of_option (session_id _ st)) (cookies _ st)
       else cookies _ st)
      (world _ st) = (Ok (rsp, j), w) ->
    resp_url rsp = listing_url ->
    exists st',
      init st = (Ok tt, st') /\
      exchanges _ st' = exchanges _ st ++ [(fetch listing_url, Ok rsp)] /\
      session_id _ st' = session_id _ st /\
      cookies _ st' = j /\ world _ st' = w.
Proof.
  intros st rsp j w Hprobe Hurl.
  unfold Scrapper_init, bind, get_session_id, _is_authenticated, bind,
    session_get, send, cookies_set, set_cookies, log, ret.
  destruct (truthy (session_id _ st)); simpl; rewrite Hprobe; simpl;
    rewrite Hurl, pystr_eqb_refl; simpl;
    eexists; repeat split; reflexivity.
Qed.

(** X3.  When the constructor returns, either the probe, sent with the jar
    seeded from the configuration, has answered [True], the constructor
    stops there and the token of the configuration is as it was; or the
    probe has answered [False], the negotiation has returned a token, and
    that token, which is not empty, is both what the configuration now
    holds and the value of the one cookie [PHPSESSID] of the jar. *)
Theorem init_stores_the_session_cookie :
  forall (st st' : state World),
    init st = (Ok tt, st') ->
    let seeded :=
      if truthy (session_id _ st)
      then with_cookies World
             (jar_set PHPSESSID (str_of_option (session_id _ st))
                      (cookies _ st)) st
      else st in
    (probe seeded = (Ok true, st') /\
     session_id _ st' = session_id _ st) \/
    (exists s1 token s2,
       probe seeded = (Ok false, s1) /\
       authenticate s1 = (Ok (Some token), s2) /\
       token <> [] /\
       session_id _ st' = Some token /\
       cookies _ st' = cookies _ s2 /\
       jar_get PHPSESSID (cookies _ st') = Ok (Some token)).
Proof.
  intros st st' H seeded. unfold Scrapper_init in H.
  unfold bind at 1, get_session_id at 1 in H. unfold bind at 1 in H.
  assert (Hseed : (if truthy (session_id _ st)
                   then cookies_set World PHPSESSID
                          (str_of_option (session_id _ st))
                   else ret World tt) st = (Ok tt, seeded)).
  { subst seeded. destruct (truthy (session_id _ st)); reflexivity. }
  rewrite Hseed in H. clear Hseed. unfold bind at 1 in H.
  assert (Hs0 : session_id _ seeded = session_id _ st).
  { subst seeded. destruct (truthy (session_id _ st)); reflexivity. }
  pose proof (probe_keeps_token World transport config seeded) as Kp.
  destruct (probe seeded) as [[b|e] s1]; simpl in Kp; [destruct b; simpl in H|].
  - unfold ret in H. injection H as <-. left.
    split; [reflexivity | congruence].
  - unfold bind at 1 in H.
    destruct (authenticate s1) as [[r|e] s2] eqn:Hauth; [|discriminate].
    unfold bind, set_session_id, get_session_id in H; simpl in H.
    destruct (truthy r) eqn:Hr; simpl in H; unfold ret, raise in H;
      [|discriminate].
    injection H as <-. right. simpl.
    destruct r as [token|]; [|discriminate].
    destruct (authenticate_token_inv World transport oracle html_parser
                config s1 token s2 Hauth)
      as (before & rq & rsp & _ & _ & _ & _ & Hjar).
    exists s1, token, s2. split; [reflexivity|]. split; [exact Hauth|].
    split; [intros ->; discriminate Hr|].
    split; [reflexivity|]. split; [reflexivity | exact Hjar].
  - discriminate.
Qed.

End Negotiation.

Section NegotiationSteps.

Variable World : Type.
Variable transport : request -> jar -> World -> result (response * jar) * World.
Variable oracle : pystr -> Z -> bytes -> World -> solution * World.
Variable html_parser : pystr -> node.
Variable config : Config.

Local Notation "'authenticate'" :=
  (_authenticate World transport oracle html_parser config).
Local Notation "'probe'" := (_is_authenticated World transport config).
Local Notation "'fetch'" := (fun url => mkrequest GET url [] []).
Local Notation "'listing_url'" := (base_url config ++ lit "/protocols.php").
Local Notation "'login_url'" := (base_url config ++ lit "/submit-index.php").
Local Notation "'key'" := (anti_captcha_key config).
Local Notation "'soft_id'" := (anti_captcha_soft_id config).

(** X4.  The negotiation starts from an empty jar: its outcome and the
    state it leaves are the same whatever cookies the session held
    before. *)
Theorem authenticate_ignores_prior_cookies :
  forall (st : state World) (j : jar),
    authenticate (with_cookies World j st) = authenticate st.
Proof.
  intros st j. unfold _authenticate.
  unfold bind at 1. unfold bind at 1.
  symmetry. unfold bind at 1. unfold bind at 1.
  reflexivity.
Qed.

(** X5.  When the login page has no CAPTCHA image, or the image has no
    [src], the negotiation raises ([TypeError], [KeyError]) after the one
    request for the login page: the oracle is not consulted and the image
    file is not written. *)
Theorem authenticate_without_captcha_image :
  forall (st : state World) page j1 w1 e,
    transport (fetch (base_url config)) [] (world _ st)
      = (Ok (page, j1), w1) ->
    subscript (Soup.find is_captcha_img (html_parser (resp_text page)))
              (lit "src") = Raise e ->
    exists st',
      authenticate st = (Raise e, st') /\
      exchanges _ st' = exchanges _ st ++ [(fetch (base_url config), Ok page)] /\
      world _ st' = w1 /\
      captcha_png _ st' = captcha_png _ st.
Proof.
  intros st page j1 w1 e Hpage Hsrc.
  unfold _authenticate, bind, log, cookies_clear, set_cookies, session_get,
    send, lift.
  simpl. rewrite Hpage. simpl. rewrite Hsrc.
  eexists. repeat split; reflexivity.
Qed.

(** X6.  When the login page has no anti-forgery field, or the field has no
    [value], the negotiation raises only after the image was fetched and the
    oracle has given its solution; the login form is not posted. *)
Theorem authenticate_without_csrf_token :
  forall (st : state World) page j1 w1 src shot j2 w2 captcha_text w3 e,
    transport (fetch (base_url config)) [] (world _ st)
      = (Ok (page, j1), w1) ->
    subscript (Soup.find is_captcha_img (html_parser (resp_text page)))
              (lit "src") = Ok src ->
    transport (fetch src) j1 w1 = (Ok (shot, j2), w2) ->
    oracle key soft_id (resp_content shot) w2 = (Solved captcha_text, w3) ->
    subscript (Soup.find is_csrf_input (html_parser (resp_text page)))
              (lit "value") = Raise e ->
    exists st',
      authenticate st = (Raise e, st') /\
      exchanges _ st' =
        exchanges _ st ++
        [(fetch (base_url config), Ok page); (fetch src, Ok shot)] /\
      world _ st' = w3.
Proof.
  intros st page j1 w1 src shot j2 w2 captcha_text w3 e
         Hpage Hsrc Hshot Horacle Hcsrf.
  unfold _authenticate, bind, log, cookies_clear, set_cookies, session_get,
    send, lift, write_captcha_png, solve_and_return_solution.
  simpl. rewrite Hpage. simpl. rewrite Hsrc. simpl.
  rewrite Hshot. simpl. rewrite Horacle. simpl. rewrite Hcsrf.
  eexists. split; [reflexivity|]. simpl.
  split; [rewrite <- app_assoc; reflexivity | reflexivity].
Qed.

(** X7.  A negotiation that gets to the login form: it has fetched the
    login page and the image, written the image to the file, and posts the
    form once, with the document and vehicle numbers of the configuration,
    the text of the oracle and the anti-forgery value of the login page.
    When the URL of the answer holds [protocols.php] it ends as the look-up
    of the cookie [PHPSESSID] in the jar the answer left: the value of the
    cookie, [None] if there is no such cookie or its value is empty, a
    [CookieConflictError] if the jar holds two; otherwise it returns
    [None]. *)
Theorem authenticate_full_run :
  forall (st : state World) page j1 w1 src shot j2 w2 captcha_text w3
         csrf rsp j3 w4,
    transport (fetch (base_url config)) [] (world _ st)
      = (Ok (page, j1), w1) ->
    subscript (Soup.find is_captcha_img (html_parser (resp_text page)))
              (lit "src") = Ok src ->
    transport (fetch src) j1 w1 = (Ok (shot, j2), w2) ->
    oracle key soft_id (resp_content shot) w2 = (Solved captcha_text, w3) ->
    subscript (Soup.find is_csrf_input (html_parser (resp_text page)))
              (lit "value") = Ok csrf ->
    transport (mkrequest POST login_url login_headers
                 (login_form config captcha_text csrf)) j2 w3
      = (Ok (rsp, j3), w4) ->
    exists st',
      authenticate st
        = ((if contains (lit "protocols.php") (resp_url rsp)
            then jar_get PHPSESSID j3 else Ok None), st') /\
      exchanges _ st' =
        exchanges _ st ++
        [ (fetch (base_url config), Ok page);
          (fetch src, Ok shot);
          (mkrequest POST login_url login_headers
             (login_form config captcha_text csrf), Ok rsp) ] /\
      cookies _ st' = j3 /\ world _ st' = w4 /\
      captcha_png _ st' = Some (resp_content shot) /\
      session_id _ st' = session_id _ st.
Proof.
  intros st page j1 w1 src shot j2 w2 captcha_text w3 csrf rsp j3 w4
         Hpage Hsrc Hshot Horacle Hcsrf Hpost.
  unfold _authenticate, bind, log, cookies_clear, set_cookies, session_get,
    session_post, send, lift, write_captcha_png, solve_and_return_solution,
    cookies_get, ret.
  simpl. rewrite Hpage. simpl. rewrite Hsrc. simpl.
  rewrite Hshot. simpl. rewrite Horacle. simpl. rewrite Hcsrf. simpl.
  rewrite Hpost. simpl.
  destruct (contains (lit "protocols.php") (resp_url rsp)); simpl;
    [destruct (jar_get PHPSESSID j3) as [sid|e]; simpl|];
    eexists; (split; [reflexivity|]); simpl;
    (split; [rewrite <- !app_assoc; reflexivity|]);
    repeat split; reflexivity.
Qed.

(** X8.  The probe can be repeated: when the exchange leaves the jar and
    the world as they were, a second probe gives the answer of the first,
    and each probe sends one [GET] and nothing else. *)
Theorem probe_is_repeatable :
  forall (st : state World) rsp,
    transport (fetch listing_url) (cookies _ st) (world _ st)
      = (Ok (rsp, cookies _ st), world _ st) ->
    fst (probe (snd (probe st))) = fst (probe st) /\
    exchanges _ (snd (probe (snd (probe st)))) =
      exchanges _ st ++
      [(fetch listing_url, Ok rsp); (fetch listing_url, Ok rsp)].
Proof.
  intros st rsp H.
  unfold _is_authenticated, bind, session_get, send, log, ret.
  rewrite H. simpl.
  destruct (PyStr.eqb (resp_url rsp) listing_url) eqn:E; simpl;
    rewrite H; simpl; rewrite E; simpl;
    (split; [reflexivity | rewrite <- app_assoc; reflexivity]).
Qed.

End NegotiationSteps.

(** ** Dates and amounts as the portal writes them *)

Section WrittenTexts.

Import Written.

Lemma unicode_decimal_digit_char k :
  0 <= k <= 9 -> unicode_decimal (digit_char k) = Some (Z.to_N k).
Proof.
  intros H.
  assert (E : k = 0 \/ k = 1 \/ k = 2 \/ k = 3 \/ k = 4 \/ k = 5 \/ k = 6 \/
              k = 7 \/ k = 8 \/ k = 9) by lia.
  repeat (destruct E as [->|E]; [reflexivity|]). subst k. reflexivity.
Qed.

Lemma day_alternatives_head d r :
  1 <= d <= 31 ->
  exists more, day_alternatives (two_digits d ++ r) = (d, r) :: more.
Proof.
  intros H. destruct d as [|p|p]; try lia.
  do 5 (try destruct p as [p|p|]); try lia; eexists; reflexivity.
Qed.

Lemma month_alternatives_head m r :
  1 <= m <= 12 ->
  exists more, month_alternatives (two_digits m ++ r) = (m, r) :: more.
Proof.
  intros H. destruct m as [|p|p]; try lia.
  do 4 (try destruct p as [p|p|]); try lia; eexists; reflexivity.
Qed.

Lemma year_alternatives_four_digits y :
  0 <= y <= 9999 -> year_alternatives (four_digits y) = [(y, [])].
Proof.
  intros H. unfold year_alternatives, four_digits.
  rewrite !unicode_decimal_digit_char
    by (Z.to_euclidean_division_equations; lia).
  rewrite !Z2N.id by (Z.to_euclidean_division_equations; lia).
  do 2 f_equal. Z.to_euclidean_division_equations. lia.
Qed.

Lemma days_in_month_le_31 y m : days_in_month y m <= 31.
Proof.
  unfold days_in_month.
  destruct (m =? 2); [destruct (is_leap y); lia|].
  destruct (_ || _)%bool; lia.
Qed.

Lemma make_date_valid y m d :
  1 <= y <= 9999 -> 1 <= m <= 12 -> 1 <= d <= days_in_month y m ->
  make_date y m d = Ok (mkdate y m d).
Proof.
  intros Hy Hm Hd. unfold make_date.
  replace (_ && _)%bool with true; [reflexivity|].
  symmetry. rewrite !andb_true_iff, !Z.leb_le. lia.
Qed.

Lemma make_date_inv y m d t :
  make_date y m d = Ok t ->
  t = mkdate y m d /\
  1 <= y <= 9999 /\ 1 <= m <= 12 /\ 1 <= d <= days_in_month y m.
Proof.
  unfold make_date. destruct (_ && _)%bool eqn:E; [|discriminate].
  intros H. inversion H. rewrite !andb_true_iff, !Z.leb_le in E.
  split; [reflexivity | lia].
Qed.

(** A valid date written [dd.mm.yyyy] is read back. *)
Lemma strptime_reads_written_date d m y :
  1 <= y <= 9999 -> 1 <= m <= 12 -> 1 <= d <= days_in_month y m ->
  strptime_dmY (date_text d m y) = Ok (mkdate y m d).
Proof.
  intros Hy Hm Hd.
  pose proof (days_in_month_le_31 y m) as H31.
  unfold strptime_dmY, pattern_matches, date_text.
  change (lit ".") with [46%N]. cbn [app].
  destruct (day_alternatives_head d
              (46%N :: two_digits m ++ 46%N :: four_digits y)
              ltac:(lia)) as (more1 & ->).
  cbn [flat_map dot].
  destruct (month_alternatives_head m (46%N :: four_digits y) Hm)
    as (more2 & ->).
  cbn [flat_map dot].
  rewrite year_alternatives_four_digits by lia.
  cbn [map app]. apply make_date_valid; assumption.
Qed.

End WrittenTexts.

(** ** The row extractor, column by column *)

Section Columns.

Import Written.

Variable World : Type.

Local Notation "'info'" := (_get_protocol_info World).

Lemma drop_last_app (s suffix : pystr) :
  drop_last (length suffix) (s ++ suffix) = s.
Proof.
  unfold drop_last. rewrite length_app.
  replace (length s + length suffix - length suffix)%nat with (length s)
    by lia.
  rewrite firstn_app, Nat.sub_diag, firstn_all. simpl. apply app_nil_r.
Qed.

Lemma strptime_valid s t :
  strptime_dmY s = Ok t ->
  1 <= year t <= 9999 /\ 1 <= month t <= 12 /\
  1 <= day t <= days_in_month (year t) (month t).
Proof.
  unfold strptime_dmY.
  destruct (pattern_matches s) as [|[[[d m] y] [|c r]] more];
    try discriminate.
  intros H. apply make_date_inv in H. destruct H as [-> H]. exact H.
Qed.

Lemma amounts_checked : forallb amount_check (amounts_below 50000) = true.
Proof. vm_compute. reflexivity. Qed.

Lemma in_count_from n :
  forall start c,
    start <= c < start + Z.of_nat n -> In c (count_from start n).
Proof.
  induction n as [|n IH]; intros start c H; [lia|].
  simpl. destruct (Z.eq_dec start c) as [->|Hne]; [left; reflexivity|].
  right. apply IH. lia.
Qed.

Lemma in_amounts_below n cents :
  0 <= cents < n -> In cents (amounts_below n).
Proof. intros H. apply in_count_from. lia. Qed.

Lemma amount_check_below cents :
  0 <= cents < 50000 -> amount_check cents = true.
Proof.
  intros H.
  exact (proj1 (forallb_forall amount_check (amounts_below 50000))
               amounts_checked cents (in_amounts_below 50000 cents H)).
Qed.

(** X9.  A date column whose first descendant has the text [dd.mm.yyyy] of
    a date of the calendar, years 1 to 9999, gives that date. *)
Theorem format_date_reads_written_date :
  forall col first others d m y,
    descendants col = first :: others ->
    text first = date_text d m y ->
    1 <= y <= 9999 -> 1 <= m <= 12 -> 1 <= d <= days_in_month y m ->
    format_date col = Ok (mkdate y m d).
Proof.
  intros col first others d m y Hdesc Htext Hy Hm Hd.
  unfold format_date. rewrite Hdesc. simpl. rewrite Htext.
  apply strptime_reads_written_date; assumption.
Qed.

(** X10.  The date of a Protocol the row extractor returns is a date of the
    calendar: the month from 1 to 12, the day within the month, leap years
    counted, the year from 1 to 9999. *)
Theorem protocol_date_is_valid :
  forall row (st : state World) p st',
    info row st = (Ok p, st') ->
    1 <= year (date p) <= 9999 /\
    1 <= month (date p) <= 12 /\
    1 <= day (date p) <= days_in_month (year (date p)) (month (date p)).
Proof.
  intros row st p st' H.
  apply get_protocol_info_inv in H.
  destruct H as (c1 & c2 & c3 & c4 & c6 & _ & _ & _ & _ & _ & _ & _ & Hd & _).
  unfold format_date in Hd.
  destruct (index (descendants c2) 0) as [first|e]; [|discriminate].
  simpl in Hd. apply strptime_valid in Hd. exact Hd.
Qed.

(** X11.  A row with fewer than seven [span] elements of class [col] gives
    no Protocol: the row extractor raises. *)
Theorem row_needs_seven_columns :
  forall row (st : state World),
    (length (find_all is_col row) < 7)%nat ->
    exists e, fst (info row st) = Raise e.
Proof.
  intros row st Hlen.
  destruct (info row st) as [[p|e] st'] eqn:E.
  - exfalso. apply get_protocol_info_inv in E.
    destruct E as (c1 & c2 & c3 & c4 & c6 & _ & _ & _ & _ & H6 & _).
    unfold index in H6.
    destruct (nth_error (find_all is_col row) 6) eqn:N; [|discriminate].
    assert (nth_error (find_all is_col row) 6 <> None) by congruence.
    apply nth_error_Some in H. lia.
  - exists e. reflexivity.
Qed.

(** X12.  The last four characters of the amount text are dropped
    unread: two amount columns whose texts differ only in their last four
    characters give the same amount, or the same exception. *)
Theorem amount_suffix_is_not_read :
  forall col1 col2 s suffix1 suffix2 rest1 rest2,
    length suffix1 = 4%nat -> length suffix2 = 4%nat ->
    descendants col1 = Text (s ++ suffix1) :: rest1 ->
    descendants col2 = Text (s ++ suffix2) :: rest2 ->
    format_money_element col1 = format_money_element col2.
Proof.
  intros col1 col2 s suffix1 suffix2 rest1 rest2 H1 H2 D1 D2.
  unfold format_money_element, slice_amount. rewrite D1, D2.
  rewrite <- H1 at 1. rewrite <- H2 at 1.
  rewrite !drop_last_app. reflexivity.
Qed.

(** X13.  An amount column whose first descendant is a text of four
    characters or fewer raises [ValueError], and one whose first descendant
    is an element raises [TypeError]: the default 0 is for a column with
    nothing below it only. *)
Theorem amount_column_errors :
  forall col first rest,
    descendants col = first :: rest ->
    (forall s, first = Text s -> (length s <= 4)%nat ->
       format_money_element col = Raise ValueError) /\
    (is_str first = false -> format_money_element col = Raise TypeError).
Proof.
  intros col first rest Hd. split.
  - intros s -> Hlen.
    unfold format_money_element, slice_amount, drop_last.
    rewrite Hd. replace (length s - 4)%nat with 0%nat by lia.
    reflexivity.
  - intros Hstr. unfold format_money_element. rewrite Hd.
    destruct first; [discriminate | reflexivity].
Qed.

(** X14.  For the amounts from [0.00] to [499.99] written with two
    decimals and followed by four characters, the amount computed is the
    number of hundredths or one more: it is never less, and it is exact for
    a whole amount. *)
Theorem written_amount_within_one :
  forall col cents suffix rest,
    0 <= cents < 50000 ->
    length suffix = 4%nat ->
    descendants col = Text (amount_numeral cents ++ suffix) :: rest ->
    exists r,
      format_money_element col = Ok r /\
      cents <= r <= cents + 1 /\
      (cents mod 100 = 0 -> r = cents).
Proof.
  intros col cents suffix rest Hc Hs Hd.
  pose proof (amount_check_below cents Hc) as Hchk.
  unfold amount_check, amount_of_numeral in Hchk.
  unfold format_money_element, slice_amount. rewrite Hd.
  rewrite <- Hs, drop_last_app. cbn [rbind].
  destruct (rbind (PyFloat.of_str (amount_numeral cents)) _) as [r|e];
    [|discriminate].
  exists r. split; [reflexivity|].
  apply andb_true_iff in Hchk. destruct Hchk as [Hin Hex].
  apply andb_true_iff in Hin. rewrite !Z.leb_le in Hin.
  split; [lia|].
  intros Hmod. apply Z.eqb_eq in Hmod. rewrite Hmod in Hex. simpl in Hex.
  apply Z.eqb_eq in Hex. exact Hex.
Qed.

End Columns.

(** ** The audio reference *)

Section AudioReference.

Import Regex.

Lemma starts_with_app p r : starts_with p (p ++ r) = true.
Proof.
  induction p as [|x p IH]; simpl; [reflexivity|].
  rewrite N.eqb_refl. exact IH.
Qed.

Lemma starts_with_inv p :
  forall s, starts_with p s = true -> exists r, s = p ++ r.
Proof.
  induction p as [|x p IH]; intros s H.
  - exists s. reflexivity.
  - destruct s as [|y s]; [discriminate|]. simpl in H.
    apply andb_true_iff in H. destruct H as [Hxy H].
    apply N.eqb_eq in Hxy. subst y.
    destruct (IH s H) as (r & ->). exists r. reflexivity.
Qed.

Lemma skipn_length_app (p r : pystr) : skipn (length p) (p ++ r) = r.
Proof. induction p as [|x p IH]; simpl; [reflexivity | exact IH]. Qed.

Lemma greedy_dot_star_sound suffix :
  forall r g,
    greedy_dot_star suffix r = Some g ->
    (exists post, r = g ++ suffix ++ post) /\ ~ In 10%N g.
Proof.
  induction r as [|c r IH]; intros g H; simpl in H.
  - destruct (starts_with suffix []) eqn:E; [|discriminate].
    inversion H; subst. apply starts_with_inv in E.
    destruct E as (post & E). split; [exists post; exact E | intros []].
  - assert (Hhere : starts_with suffix (c :: r) = true -> g = [] ->
                    (exists post, c :: r = g ++ suffix ++ post) /\
                    ~ In 10%N g).
    { intros E ->. apply starts_with_inv in E. destruct E as (post & E).
      split; [exists post; exact E | intros []]. }
    destruct (N.eqb c 10) eqn:Hc.
    + destruct (starts_with suffix (c :: r)) eqn:E; [|discriminate].
      inversion H; subst. apply Hhere; reflexivity.
    + destruct (greedy_dot_star suffix r) as [g'|] eqn:Hg.
      * inversion H; subst. destruct (IH g' eq_refl) as ((post & ->) & Hnl).
        split; [exists post; reflexivity|].
        intros [Heq|Hin]; [|exact (Hnl Hin)].
        subst c. discriminate.
      * destruct (starts_with suffix (c :: r)) eqn:E; [|discriminate].
        inversion H; subst. apply Hhere; reflexivity.
Qed.

Lemma greedy_dot_star_here suffix r :
  starts_with suffix r = true -> greedy_dot_star suffix r <> None.
Proof.
  intros E. destruct r as [|c r]; simpl.
  - simpl in E. rewrite E. discriminate.
  - destruct (N.eqb c 10); [rewrite E; discriminate|].
    destruct (greedy_dot_star suffix r); [discriminate|].
    rewrite E. discriminate.
Qed.

Lemma greedy_dot_star_complete suffix post :
  forall g, ~ In 10%N g ->
    greedy_dot_star suffix (g ++ suffix ++ post) <> None.
Proof.
  induction g as [|c g IH]; intros Hnl.
  - cbn [app]. apply greedy_dot_star_here. apply starts_with_app.
  - cbn [app greedy_dot_star].
    destruct (N.eqb c 10) eqn:Hc.
    { apply N.eqb_eq in Hc. exfalso. apply Hnl. left. exact Hc. }
    destruct (greedy_dot_star suffix (g ++ suffix ++ post)) eqn:Hg;
      [discriminate|].
    exfalso. apply (IH (fun Hin => Hnl (or_intror Hin))). reflexivity.
Qed.

Lemma search_sound pre suffix :
  forall s g,
    search pre suffix s = Some g ->
    (exists before post, s = before ++ pre ++ g ++ suffix ++ post) /\
    ~ In 10%N g.
Proof.
  assert (Hhere : forall s g, match_here pre suffix s = Some g ->
            (exists before post, s = before ++ pre ++ g ++ suffix ++ post) /\
            ~ In 10%N g).
  { intros s g H. unfold match_here in H.
    destruct (starts_with pre s) eqn:E; [|discriminate].
    apply starts_with_inv in E. destruct E as (r & ->).
    rewrite skipn_length_app in H.
    apply greedy_dot_star_sound in H. destruct H as ((post & ->) & Hnl).
    split; [exists [], post; reflexivity | exact Hnl]. }
  induction s as [|c s IH]; intros g H; simpl in H.
  - destruct (match_here pre suffix []) eqn:E; [|discriminate].
    inversion H; subst. apply Hhere. exact E.
  - destruct (match_here pre suffix (c :: s)) eqn:E.
    + inversion H; subst. apply Hhere. exact E.
    + destruct (IH g H) as ((before & post & ->) & Hnl).
      split; [exists (c :: before), post; reflexivity | exact Hnl].
Qed.

Lemma search_complete pre suffix g post :
  ~ In 10%N g ->
  forall before,
    search pre suffix (before ++ pre ++ g ++ suffix ++ post) <> None.
Proof.
  intros Hnl.
  assert (Hhere : match_here pre suffix (pre ++ g ++ suffix ++ post)
                  <> None).
  { unfold match_here. rewrite starts_with_app, skipn_length_app.
    apply greedy_dot_star_complete. exact Hnl. }
  induction before as [|c before IH].
  - simpl app at 1.
    destruct (pre ++ g ++ suffix ++ post) as [|x l] eqn:E; simpl;
      destruct (match_here pre suffix _); try discriminate;
      exfalso; apply Hhere; reflexivity.
  - simpl.
    destruct (match_here pre suffix (c :: before ++ _)); [discriminate|].
    exact IH.
Qed.

(** X15.  The audio reference the media extractor finds stands in the
    markup: the markup holds ['oggvideo-], the identifier and [.ogg';src2]
    in a row, and the identifier has no line break. *)
Theorem oggvideo_reference_is_in_the_markup :
  forall s id,
    search_oggvideo s = Some id ->
    (exists before post,
       s = before ++ lit "'oggvideo-" ++ id ++ lit ".ogg';src2" ++ post) /\
    ~ In 10%N id.
Proof. intros s id H. apply search_sound. exact H. Qed.

(** X16.  The search finds a reference exactly when the markup holds one:
    it gives [None] if and only if the markup cannot be cut into a text,
    ['oggvideo-], an identifier without a line break, [.ogg';src2] and a
    text. *)
Theorem oggvideo_reference_found_iff :
  forall s,
    search_oggvideo s <> None <->
    exists before id post,
      s = before ++ lit "'oggvideo-" ++ id ++ lit ".ogg';src2" ++ post /\
      ~ In 10%N id.
Proof.
  intros s. split.
  - intros H. destruct (search_oggvideo s) as [id|] eqn:E; [|congruence].
    apply search_sound in E. destruct E as ((before & post & ->) & Hnl).
    exists before, id, post. split; [reflexivity | exact Hnl].
  - intros (before & id & post & -> & Hnl).
    apply search_complete. exact Hnl.
Qed.

End AudioReference.

(** ** The pipeline, its requests and its failures *)

Section PipelineSteps.

Variable World : Type.
Variable transport : request -> jar -> World -> result (response * jar) * World.
Variable html_parser : pystr -> node.
Variable markup : node -> pystr.
Variable config : Config.

Local Notation "'info'" := (_get_protocol_info World).
Local Notation "'media_of'" :=
  (_get_protocol_media World transport html_parser markup config).
Local Notation "'blob_of'" :=
  (create_media_blob World transport markup config).
Local Notation "'process'" :=
  (process_protocol_row World transport html_parser markup config).
Local Notation "'protocols'" :=
  (get_protocols World transport html_parser markup config).
Local Notation "'fetch'" := (fun url => mkrequest GET url [] []).
Local Notation "'listing_url'" := (base_url config ++ lit "/protocols.php").

Ltac bind_inv H a s Ha :=
  apply bind_ok_inv in H; destruct H as (a & s & Ha & H).

Ltac lift_inv H :=
  apply lift_ok_inv in H; destruct H as [H ?]; subst.

(** *** Steps that stay off line *)

Lemma offline_bind {A B} (m : M World A) (k : A -> M World B) :
  offline World m -> (forall a, offline World (k a)) ->
  offline World (bind World m k).
Proof.
  intros Hm Hk s. unfold bind. specialize (Hm s).
  destruct (m s) as [[a|e] s1]; simpl in *; [|exact Hm].
  destruct Hm as (H1 & H2 & H3 & H4 & H5).
  destruct (Hk a s1) as (K1 & K2 & K3 & K4 & K5).
  repeat split; congruence.
Qed.

Lemma offline_lift {A} (r : result A) : offline World (lift World r).
Proof. intros s. repeat split; reflexivity. Qed.

Lemma offline_log lv msg args : offline World (log World lv msg args).
Proof. intros s. repeat split; reflexivity. Qed.

Lemma offline_ret {A} (a : A) : offline World (ret World a).
Proof. intros s. repeat split; reflexivity. Qed.

Lemma get_protocol_info_offline row : offline World (info row).
Proof.
  unfold _get_protocol_info.
  repeat first [ apply offline_bind; [| intros ?]
               | apply offline_lift | apply offline_log | apply offline_ret ].
Qed.

(** X17.  The row extractor works on the markup alone: whether it returns a
    Protocol or raises, it sends no request and leaves the jar, the token
    of the configuration, the image file and the world as they were. *)
Theorem get_protocol_info_is_offline :
  forall row (st : state World),
    cookies _ (snd (info row st)) = cookies _ st /\
    session_id _ (snd (info row st)) = session_id _ st /\
    world _ (snd (info row st)) = world _ st /\
    exchanges _ (snd (info row st)) = exchanges _ st /\
    captcha_png _ (snd (info row st)) = captcha_png _ st.
Proof.
  intros row st. exact (get_protocol_info_offline row st).
Qed.

(** *** The requests of [get_protocols] *)

Lemma keeps_mapM {A B} (f : A -> M World B) l :
  (forall a, keeps_token World (f a)) -> keeps_token World (mapM World f l).
Proof.
  intros Hf. induction l as [|a l IH]; simpl.
  - apply keeps_ret.
  - apply keeps_bind; [apply Hf | intros b].
    apply keeps_bind; [exact IH | intros bs]. apply keeps_ret.
Qed.

Ltac keeps :=
  repeat first
    [ apply keeps_bind; [| intros ?]
    | apply keeps_ret | apply keeps_lift | apply keeps_log
    | apply keeps_send | apply keeps_mapM; intros ?
    | match goal with
      | |- keeps_token _ (match ?x with _ => _ end) => destruct x
      | |- keeps_token _ (let '(_, _) := ?x in _) => destruct x
      end ].

Lemma get_protocols_keeps_token : keeps_token World protocols.
Proof.
  unfold get_protocols, process_protocol_row, _get_protocol_media,
    create_media_blob, _get_protocol_info, session_get.
  keeps.
Qed.

Ltac gets :=
  repeat first
    [ apply (appends_bind World only_gets only_gets only_gets);
        [exact only_gets_app | reflexivity | | intros ?]
    | apply appends_silent; [reflexivity | reflexivity]
    | apply appends_send; intros ?; reflexivity
    | apply appends_mapM;
        [exact only_gets_app | reflexivity | intros ?]
    | match goal with
      | |- appends _ _ (match ?x with _ => _ end) => destruct x
      | |- appends _ _ (let '(_, _) := ?x in _) => destruct x
      end ].

Lemma get_protocols_only_gets : appends World only_gets protocols.
Proof.
  unfold get_protocols, process_protocol_row, _get_protocol_media,
    create_media_blob, _get_protocol_info, session_get.
  gets.
Qed.

(** X18.  [get_protocols] only reads: whether it returns or raises, every
    request it has sent is a [GET], and the token of the configuration is
    as it was.  It never posts the login form; a session the portal no
    longer knows is not renewed. *)
Theorem get_protocols_only_reads :
  forall st : state World,
    (exists new,
       exchanges _ (snd (protocols st)) = exchanges _ st ++ new /\
       Forall (fun x => req_method (fst x) = GET) new) /\
    session_id _ (snd (protocols st)) = session_id _ st.
Proof.
  intros st. split; [|apply get_protocols_keeps_token].
  destruct (get_protocols_only_gets st) as (new & E & H).
  exists new. split; [exact E|].
  unfold only_gets, posts in H. apply Forall_forall. intros x Hin.
  destruct (req_method (fst x)) eqn:Hm; [reflexivity|].
  exfalso.
  assert (Hf : In x (filter is_post new)).
  { apply filter_In. split; [exact Hin|]. unfold is_post. rewrite Hm.
    reflexivity. }
  destruct (filter is_post new); [contradiction | discriminate].
Qed.

(** X19.  When the page that comes back for the listing has no [div] of
    class [grid] (the login page of an expired session, say),
    [get_protocols] raises [AttributeError] after that one request. *)
Theorem get_protocols_without_grid :
  forall (st : state World) page j w,
    transport (fetch listing_url) (cookies _ st) (world _ st)
      = (Ok (page, j), w) ->
    Soup.find is_grid (html_parser (resp_text page)) = None ->
    protocols st
      = (Raise AttributeError, listing_fetched World config st page j w).
Proof.
  intros st page j w Hpage Hgrid.
  unfold get_protocols, bind, log, session_get, send, lift, listing_rows,
    not_none, on_some, listing_fetched.
  simpl. rewrite Hpage. simpl. rewrite Hgrid. reflexivity.
Qed.

(** X20.  A grid without rows gives the empty list, after the one request
    for the listing. *)
Theorem get_protocols_of_empty_grid :
  forall (st : state World) page j w grid,
    transport (fetch listing_url) (cookies _ st) (world _ st)
      = (Ok (page, j), w) ->
    Soup.find is_grid (html_parser (resp_text page)) = Some grid ->
    find_all is_row grid = [] ->
    protocols st = (Ok [], listing_fetched World config st page j w).
Proof.
  intros st page j w grid Hpage Hgrid Hrows.
  unfold get_protocols, bind, log, session_get, send, lift, listing_rows,
    not_none, on_some, listing_fetched.
  simpl. rewrite Hpage. simpl. rewrite Hgrid. simpl. rewrite Hrows.
  reflexivity.
Qed.

End PipelineSteps.

(** ** The media extractor *)

Section MediaSteps.

Variable World : Type.
Variable transport : request -> jar -> World -> result (response * jar) * World.
Variable html_parser : pystr -> node.
Variable markup : node -> pystr.
Variable config : Config.

Local Notation "'info'" := (_get_protocol_info World).
Local Notation "'media_of'" :=
  (_get_protocol_media World transport html_parser markup config).
Local Notation "'blob_of'" :=
  (create_media_blob World transport markup config).
Local Notation "'process'" :=
  (process_protocol_row World transport html_parser markup config).
Local Notation "'fetch'" := (fun url => mkrequest GET url [] []).

Ltac bind_inv H a s Ha :=
  apply bind_ok_inv in H; destruct H as (a & s & Ha & H).

Ltac lift_inv H :=
  apply lift_ok_inv in H; destruct H as [H ?]; subst.


(** X21.  One media item: a placeholder with an image below it gives a
    [PNG] whose payload is the body fetched at the [src] of the first image,
    whatever its markup holds besides; a placeholder without an image gives
    an [OGG] whose payload is the body fetched at [oggvideo-<id>.ogg], the
    identifier being the one found in its markup.  Both addresses are taken
    below the base address. *)
Theorem media_item_kind_and_payload :
  forall tag (s : state World) m s',
    blob_of tag s = (Ok m, s') ->
    exists url rsp j w,
      transport (fetch (base_url config ++ lit "/" ++ url))
                (cookies _ s) (world _ s) = (Ok (rsp, j), w) /\
      blob m = resp_content rsp /\
      match Soup.find (named (lit "img")) tag with
      | Some img => attr (lit "src") img = Ok url /\ type m = PNG
      | None =>
          exists id,
            Regex.search_oggvideo (markup tag) = Some id /\
            url = lit "oggvideo-" ++ id ++ lit ".ogg" /\ type m = OGG
      end.
Proof.
  intros tag s m s' H. unfold create_media_blob in H.
  bind_inv H ref s1 H1. lift_inv H1. destruct ref as [url media_type].
  bind_inv H u s2 H2. unfold log in H2. inversion H2; subst; clear H2.
  bind_inv H rsp s3 H3. unfold session_get, send in H3. simpl in H3.
  destruct (transport _ (cookies _ s) (world _ s)) as [[[rsp' j]|e] w] eqn:Ht;
    inversion H3; subst; clear H3.
  unfold ret in H. inversion H; subst; clear H.
  exists url, rsp, j, w. split; [exact Ht|]. split; [reflexivity|].
  unfold media_reference in H1.
  destruct (Soup.find (named (lit "img")) tag) as [img|].
  - destruct (attr (lit "src") img) as [src|e]; [|discriminate].
    inversion H1; subst. split; reflexivity.
  - destruct (Regex.search_oggvideo (markup tag)) as [id|]; [|discriminate].
    inversion H1; subst. exists id. repeat split; reflexivity.
Qed.


End MediaSteps.

Section MediaFailures.

Variable World : Type.
Variable transport : request -> jar -> World -> result (response * jar) * World.
Variable html_parser : pystr -> node.
Variable markup : node -> pystr.
Variable config : Config.

Local Notation "'info'" := (_get_protocol_info World).
Local Notation "'media_of'" :=
  (_get_protocol_media World transport html_parser markup config).
Local Notation "'blob_of'" :=
  (create_media_blob World transport markup config).
Local Notation "'process'" :=
  (process_protocol_row World transport html_parser markup config).
Local Notation "'fetch'" := (fun url => mkrequest GET url [] []).

(** X23.  When the wrapper of the attachments is not where the template
    has it (no content container, no [div] below it, fewer than two [div]
    children), the media extractor raises after the one request for the
    detail page: no media is fetched. *)
Theorem media_wrapper_missing :
  forall href (s : state World) page j w e,
    transport (fetch (base_url config ++ lit "/" ++ href))
              (cookies _ s) (world _ s) = (Ok (page, j), w) ->
    media_wrapper (html_parser (resp_text page)) = Raise e ->
    (e = AttributeError \/ e = IndexError) /\
    exists s',
      media_of href s = (Raise e, s') /\
      exchanges _ s' =
        exchanges _ s ++
        [(fetch (base_url config ++ lit "/" ++ href), Ok page)].
Proof.
  intros href s page j w e Hpage Hwrap. split.
  - unfold media_wrapper, not_none, on_some, index in Hwrap.
    destruct (Soup.find is_content _) as [content|]; simpl in Hwrap;
      [|inversion Hwrap; auto].
    destruct (Soup.find is_div content) as [inner|]; simpl in Hwrap;
      [|inversion Hwrap; auto].
    destruct (find_all_children is_div inner) as [|x [|y l]];
      inversion Hwrap; auto.
  - unfold _get_protocol_media, bind, log, session_get, send, lift.
    cbn [cookies world]. rewrite Hpage. rewrite Hwrap.
    eexists. split; reflexivity.
Qed.

(** X24.  An image without a [src] makes the media item fail with
    [KeyError] before any request: the audio reference is not tried for a
    placeholder that has an image. *)
Theorem image_without_src_raises :
  forall tag (s : state World) img,
    Soup.find (named (lit "img")) tag = Some img ->
    attr (lit "src") img = Raise KeyError ->
    blob_of tag s = (Raise KeyError, s).
Proof.
  intros tag s img Himg Hsrc.
  unfold create_media_blob, bind, lift, media_reference.
  rewrite Himg, Hsrc. reflexivity.
Qed.

(** X25.  A row whose link has no [href] gives no Protocol: the row raises
    without a request having been sent for it. *)
Theorem row_link_without_href_raises :
  forall row (s : state World) link,
    Soup.find is_link row = Some link ->
    attr (lit "href") link = Raise KeyError ->
    exists e,
      fst (process row s) = Raise e /\
      exchanges _ (snd (process row s)) = exchanges _ s.
Proof.
  intros row s link Hlink Hhref.
  assert (H : exists e s1, process row s = (Raise e, s1) /\
                exchanges _ s1 = exchanges _ s).
  { unfold process_protocol_row. rewrite Hlink.
    pose proof (get_protocol_info_offline World link s) as Hoff.
    destruct (info link s) as [[p|e] s1] eqn:E; simpl in Hoff.
    - rewrite (bind_ok _ _ _ _ _ _ E). unfold bind, lift. rewrite Hhref.
      exists KeyError, s1. split; [reflexivity | apply Hoff].
    - rewrite (bind_raise _ _ _ _ _ _ E).
      exists e, s1. split; [reflexivity | apply Hoff]. }
  destruct H as (e & s1 & -> & Hx). exists e. split; [reflexivity | exact Hx].
Qed.

End MediaFailures.

(* ========================================================================= *)
(** * Examples of the further properties *)

(** X2 at work: the configuration holds the token the portal knows. *)
Lemma init_with_valid_session_witness :
  exists st',
    Demo.run_init (Some (lit "fresh")) Unsolved = (Ok tt, st') /\
    exchanges _ st' =
      [(mkrequest GET (lit "http://portal/protocols.php") [] [],
        Ok (Demo.page Demo.listing_url (lit "listing")))] /\
    session_id _ st' = Some (lit "fresh") /\
    cookies _ st' = [(PHPSESSID, lit "fresh")] /\
    world _ st' = Unsolved.
Proof.
  exact (init_with_valid_session
           Demo.World Demo.transport Demo.oracle Demo.html_parser Demo.config
           (Demo.start (Some (lit "fresh")) Unsolved)
           (Demo.page Demo.listing_url (lit "listing"))
           [(PHPSESSID, lit "fresh")] Unsolved eq_refl eq_refl).
Defined.

(** X3 at work: a stale token, and an oracle that solves the CAPTCHA. *)
Lemma init_stores_the_session_cookie_witness :
  let st' := snd (Demo.run_init (Some (lit "stale")) (Solved (lit "xk4f2"))) in
  session_id _ st' = Some (lit "fresh") /\
  jar_get PHPSESSID (cookies _ st') = Ok (Some (lit "fresh")).
Proof.
  intros st'.
  assert (H0 : Scrapper_init Demo.World Demo.transport Demo.oracle
                 Demo.html_parser Demo.config
                 (Demo.start (Some (lit "stale")) (Solved (lit "xk4f2")))
               = (Ok tt, st')) by (vm_compute; reflexivity).
  destruct (init_stores_the_session_cookie
              Demo.World Demo.transport Demo.oracle Demo.html_parser
              Demo.config
              (Demo.start (Some (lit "stale")) (Solved (lit "xk4f2"))) st' H0)
    as [[Hp _] | (s1 & token & s2 & _ & _ & _ & Hsid & _ & Hjar)].
  - exfalso. apply (f_equal fst) in Hp. vm_compute in Hp. discriminate Hp.
  - assert (Ht : token = lit "fresh").
    { vm_compute in Hsid. injection Hsid as <-. reflexivity. }
    subst token. split; [exact Hsid | exact Hjar].
Defined.

(** X5 at work: a login page in which nothing is found. *)
Lemma authenticate_without_captcha_image_witness :
  exists st',
    _authenticate Demo.World Demo.transport Demo.oracle
                  DemoMore.bare_parser Demo.config DemoMore.signed_out
      = (Raise TypeError, st') /\
    exchanges _ st' =
      [(mkrequest GET (lit "http://portal") [] [],
        Ok (Demo.page (lit "http://portal") (lit "login")))] /\
    world _ st' = Solved (lit "xk4f2") /\
    captcha_png _ st' = None.
Proof.
  exact (authenticate_without_captcha_image
           Demo.World Demo.transport Demo.oracle DemoMore.bare_parser
           Demo.config DemoMore.signed_out
           (Demo.page (lit "http://portal") (lit "login")) []
           (Solved (lit "xk4f2")) TypeError eq_refl eq_refl).
Defined.

(** X6 at work: the image is there, the anti-forgery field is not. *)
Lemma authenticate_without_csrf_token_witness :
  exists st',
    _authenticate Demo.World Demo.transport Demo.oracle
                  DemoMore.parser_without_csrf Demo.config DemoMore.signed_out
      = (Raise TypeError, st') /\
    exchanges _ st' =
      [ (mkrequest GET (lit "http://portal") [] [],
         Ok (Demo.page (lit "http://portal") (lit "login")));
        (mkrequest GET (lit "http://portal/captcha.php") [] [],
         Ok (mkresponse (lit "http://portal/captcha.php") []
                        [Byte.x89; Byte.x50; Byte.x4e; Byte.x47])) ] /\
    world _ st' = Solved (lit "xk4f2").
Proof.
  exact (authenticate_without_csrf_token
           Demo.World Demo.transport Demo.oracle DemoMore.parser_without_csrf
           Demo.config DemoMore.signed_out
           (Demo.page (lit "http://portal") (lit "login")) []
           (Solved (lit "xk4f2"))
           (lit "http://portal/captcha.php")
           (mkresponse (lit "http://portal/captcha.php") []
                       [Byte.x89; Byte.x50; Byte.x4e; Byte.x47])
           [] (Solved (lit "xk4f2")) (lit "xk4f2") (Solved (lit "xk4f2"))
           TypeError eq_refl eq_refl eq_refl eq_refl eq_refl).
Defined.

(** X7 at work: the login succeeds and the cookie comes back. *)
Lemma authenticate_full_run_witness :
  exists st',
    _authenticate Demo.World Demo.transport Demo.oracle Demo.html_parser
                  Demo.config DemoMore.signed_out
      = (Ok (Some (lit "fresh")), st') /\
    exchanges _ st' =
      [ (mkrequest GET (lit "http://portal") [] [],
         Ok (Demo.page (lit "http://portal") (lit "login")));
        (mkrequest GET (lit "http://portal/captcha.php") [] [],
         Ok (mkresponse (lit "http://portal/captcha.php") []
                        [Byte.x89; Byte.x50; Byte.x4e; Byte.x47]));
        (mkrequest POST (lit "http://portal/submit-index.php") login_headers
           (login_form Demo.config (lit "xk4f2") (lit "t0k3n")),
         Ok (Demo.page (lit "http://portal/protocols.php") (lit "listing"))) ]
    /\
    cookies _ st' = [(PHPSESSID, lit "fresh")] /\
    world _ st' = Solved (lit "xk4f2") /\
    captcha_png _ st' = Some [Byte.x89; Byte.x50; Byte.x4e; Byte.x47] /\
    session_id _ st' = Some (lit "stale").
Proof.
  exact (authenticate_full_run
           Demo.World Demo.transport Demo.oracle Demo.html_parser
           Demo.config DemoMore.signed_out
           (Demo.page (lit "http://portal") (lit "login")) []
           (Solved (lit "xk4f2"))
           (lit "http://portal/captcha.php")
           (mkresponse (lit "http://portal/captcha.php") []
                       [Byte.x89; Byte.x50; Byte.x4e; Byte.x47])
           [] (Solved (lit "xk4f2")) (lit "xk4f2") (Solved (lit "xk4f2"))
           (lit "t0k3n")
           (Demo.page (lit "http://portal/protocols.php") (lit "listing"))
           [(PHPSESSID, lit "fresh")] (Solved (lit "xk4f2"))
           eq_refl eq_refl eq_refl eq_refl eq_refl eq_refl).
Defined.

(** X8 at work: two probes of a session the portal does not know. *)
Lemma probe_is_repeatable_witness :
  fst (_is_authenticated Demo.World Demo.transport Demo.config
         (snd (_is_authenticated Demo.World Demo.transport Demo.config
                 DemoMore.signed_out)))
  = Ok false.
Proof.
  refine (eq_trans
            (proj1 (probe_is_repeatable
                      Demo.World Demo.transport Demo.config
                      DemoMore.signed_out
                      (Demo.page (lit "http://portal/index.php") (lit "login"))
                      eq_refl)) _).
  reflexivity.
Defined.

(** X9 at work: the date of scenario A. *)
Lemma format_date_reads_written_date_witness :
  format_date (Demo.col [Text (lit "01.05.2023")]) = Ok (mkdate 2023 5 1).
Proof.
  refine (format_date_reads_written_date
            (Demo.col [Text (lit "01.05.2023")]) (Text (lit "01.05.2023")) []
            1 5 2023 eq_refl eq_refl _ _ _); vm_compute; split; discriminate.
Defined.

(** X10 at work: the Protocol of scenario A. *)
Lemma protocol_date_is_valid_witness :
  1 <= 2023 <= 9999 /\ 1 <= 5 <= 12 /\ 1 <= 1 <= days_in_month 2023 5.
Proof.
  exact (protocol_date_is_valid Demo.World Demo.row_A Demo.signed_in
           Demo.protocol_A
           (snd (_get_protocol_info Demo.World Demo.row_A Demo.signed_in))
           eq_refl).
Defined.

(** X11 at work: a row of three columns. *)
Lemma row_needs_seven_columns_witness :
  exists e,
    fst (_get_protocol_info Demo.World DemoMore.short_row Demo.signed_in)
      = Raise e.
Proof.
  refine (row_needs_seven_columns Demo.World DemoMore.short_row
            Demo.signed_in _).
  vm_compute. lia.
Defined.

(** X12 at work: the same number before two different suffixes. *)
Lemma amount_suffix_is_not_read_witness :
  format_money_element (Demo.col [Text (lit "10.00XXXX")])
    = format_money_element (Demo.col [Text (lit "10.00 GEL")]).
Proof.
  exact (amount_suffix_is_not_read
           (Demo.col [Text (lit "10.00XXXX")])
           (Demo.col [Text (lit "10.00 GEL")])
           (lit "10.00") (lit "XXXX") (lit " GEL") [] []
           eq_refl eq_refl eq_refl eq_refl).
Defined.

(** X13 at work: a text of three characters, and a number inside an
    element. *)
Lemma amount_column_errors_witness :
  format_money_element (Demo.col [Text (lit "N/A")]) = Raise ValueError /\
  format_money_element
    (Demo.col [Demo.tag "b" [] [] [Text (lit "10.00XXXX")]])
    = Raise TypeError.
Proof.
  split.
  - refine (proj1 (amount_column_errors
                     (Demo.col [Text (lit "N/A")]) (Text (lit "N/A")) []
                     eq_refl) (lit "N/A") eq_refl _).
    vm_compute. lia.
  - exact (proj2 (amount_column_errors
                    (Demo.col [Demo.tag "b" [] [] [Text (lit "10.00XXXX")]])
                    (Demo.tag "b" [] [] [Text (lit "10.00XXXX")])
                    [Text (lit "10.00XXXX")] eq_refl) eq_refl).
Defined.

(** X14 at work: [1.10] gives 110 or 111, and [10.00] gives 1000. *)
Lemma written_amount_within_one_witness :
  (exists r,
     format_money_element (Demo.col [Text (lit "1.10XXXX")]) = Ok r /\
     110 <= r <= 110 + 1 /\ (110 mod 100 = 0 -> r = 110)) /\
  (exists r,
     format_money_element (Demo.col [Text (lit "10.00 GEL")]) = Ok r /\
     1000 <= r <= 1000 + 1 /\ (1000 mod 100 = 0 -> r = 1000)).
Proof.
  split.
  - refine (written_amount_within_one
              (Demo.col [Text (lit "1.10XXXX")]) 110 (lit "XXXX") []
              _ eq_refl eq_refl). lia.
  - refine (written_amount_within_one
              (Demo.col [Text (lit "10.00 GEL")]) 1000 (lit " GEL") []
              _ eq_refl eq_refl). lia.
Defined.

(** X15 and X16 at work: the markup of the audio placeholder. *)
Lemma oggvideo_reference_is_in_the_markup_witness :
  (exists before post,
     Demo.markup Demo.audio_placeholder
       = before ++ lit "'oggvideo-" ++ lit "42" ++ lit ".ogg';src2" ++ post) /\
  ~ In 10%N (lit "42").
Proof.
  exact (oggvideo_reference_is_in_the_markup
           (Demo.markup Demo.audio_placeholder) (lit "42") eq_refl).
Defined.

Lemma oggvideo_reference_found_iff_witness :
  Regex.search_oggvideo (Demo.markup Demo.audio_placeholder) <> None /\
  ~ (exists before id post,
       Demo.markup Demo.empty_placeholder
         = before ++ lit "'oggvideo-" ++ id ++ lit ".ogg';src2" ++ post /\
       ~ In 10%N id).
Proof.
  split.
  - apply (proj2 (oggvideo_reference_found_iff
                    (Demo.markup Demo.audio_placeholder))).
    exists (lit "<div><script>var src1="), (lit "42"),
           (lit "='';</script></div>").
    split; [reflexivity|].
    intros H. simpl in H. intuition discriminate.
  - intros H.
    apply (proj2 (oggvideo_reference_found_iff
                    (Demo.markup Demo.empty_placeholder))) in H.
    apply H. reflexivity.
Defined.

(** X19 at work: the session is not known, the login page comes back in
    place of the listing. *)
Lemma get_protocols_without_grid_witness :
  fst (get_protocols Demo.World Demo.transport Demo.html_parser Demo.markup
         Demo.config DemoMore.signed_out) = Raise AttributeError /\
  exchanges _
    (snd (get_protocols Demo.World Demo.transport Demo.html_parser
            Demo.markup Demo.config DemoMore.signed_out))
  = [(mkrequest GET (lit "http://portal/protocols.php") [] [],
      Ok (Demo.page (lit "http://portal/index.php") (lit "login")))].
Proof.
  rewrite (get_protocols_without_grid
             Demo.World Demo.transport Demo.html_parser Demo.markup
             Demo.config DemoMore.signed_out
             (Demo.page (lit "http://portal/index.php") (lit "login"))
             [(PHPSESSID, lit "stale")] (Solved (lit "xk4f2"))
             eq_refl eq_refl).
  split; reflexivity.
Defined.

(** X20 at work: a grid without rows. *)
Lemma get_protocols_of_empty_grid_witness :
  fst (get_protocols Demo.World Demo.transport DemoMore.parser_of_empty_grid
         Demo.markup Demo.config Demo.signed_in) = Ok [].
Proof.
  rewrite (get_protocols_of_empty_grid
             Demo.World Demo.transport DemoMore.parser_of_empty_grid
             Demo.markup Demo.config Demo.signed_in
             (Demo.page Demo.listing_url (lit "listing"))
             [(PHPSESSID, lit "fresh")] Unsolved
             (Demo.tag "div" [] [lit "grid"] [])
             eq_refl eq_refl eq_refl).
  reflexivity.
Defined.

(** X21 at work: the image placeholder and the audio placeholder. *)
Lemma media_item_kind_and_payload_witness :
  (exists url rsp j w,
     Demo.transport
       (mkrequest GET (base_url Demo.config ++ lit "/" ++ url) [] [])
       (cookies _ Demo.signed_in) (world _ Demo.signed_in)
       = (Ok (rsp, j), w) /\
     [Byte.x01] = resp_content rsp /\
     attr (lit "src") (Demo.tag "img" [(lit "src", lit "img/x.png")] [] [])
       = Ok url /\ PNG = PNG) /\
  (exists url rsp j w,
     Demo.transport
       (mkrequest GET (base_url Demo.config ++ lit "/" ++ url) [] [])
       (cookies _ Demo.signed_in) (world _ Demo.signed_in)
       = (Ok (rsp, j), w) /\
     [Byte.x02; Byte.x03] = resp_content rsp /\
     exists id,
       Regex.search_oggvideo (Demo.markup Demo.audio_placeholder) = Some id /\
       url = lit "oggvideo-" ++ id ++ lit ".ogg" /\ OGG = OGG).
Proof.
  split.
  - refine (media_item_kind_and_payload
              Demo.World Demo.transport Demo.markup Demo.config
              Demo.image_placeholder Demo.signed_in
              (mkMedia [Byte.x01] PNG) _ _).
    vm_compute. reflexivity.
  - refine (media_item_kind_and_payload
              Demo.World Demo.transport Demo.markup Demo.config
              Demo.audio_placeholder Demo.signed_in
              (mkMedia [Byte.x02; Byte.x03] OGG) _ _).
    vm_compute. reflexivity.
Defined.


(** X23 at work: a detail page in which nothing is found. *)
Lemma media_wrapper_missing_witness :
  (AttributeError = AttributeError \/ AttributeError = IndexError) /\
  exists s',
    _get_protocol_media Demo.World Demo.transport DemoMore.bare_parser
      Demo.markup Demo.config (lit "detail.php?id=1") Demo.signed_in
      = (Raise AttributeError, s') /\
    exchanges _ s' =
      [(mkrequest GET (lit "http://portal/detail.php?id=1") [] [],
        Ok (Demo.page (lit "http://portal/detail.php?id=1")
                      (lit "detail-1")))].
Proof.
  exact (media_wrapper_missing
           Demo.World Demo.transport DemoMore.bare_parser Demo.markup
           Demo.config (lit "detail.php?id=1") Demo.signed_in
           (Demo.page (lit "http://portal/detail.php?id=1") (lit "detail-1"))
           [(PHPSESSID, lit "fresh")] Unsolved AttributeError
           eq_refl eq_refl).
Defined.

(** X24 at work: an image without a source beside an audio reference. *)
Lemma image_without_src_raises_witness :
  create_media_blob Demo.World Demo.transport Demo.markup Demo.config
    DemoMore.image_without_src Demo.signed_in
  = (Raise KeyError, Demo.signed_in) /\
  Regex.search_oggvideo (Demo.markup DemoMore.image_without_src)
  = Some (lit "42").
Proof.
  split; [|reflexivity].
  exact (image_without_src_raises
           Demo.World Demo.transport Demo.markup Demo.config
           DemoMore.image_without_src Demo.signed_in
           (Demo.tag "img" [(lit "alt", lit "photo")] [] [])
           eq_refl eq_refl).
Defined.

(** X25 at work: a link without an address. *)
Lemma row_link_without_href_raises_witness :
  exists e,
    fst (process_protocol_row Demo.World Demo.transport Demo.html_parser
           Demo.markup Demo.config DemoMore.row_without_href Demo.signed_in)
      = Raise e /\
    exchanges _
      (snd (process_protocol_row Demo.World Demo.transport Demo.html_parser
              Demo.markup Demo.config DemoMore.row_without_href
              Demo.signed_in))
    = [].
Proof.
  exact (row_link_without_href_raises
           Demo.World Demo.transport Demo.html_parser Demo.markup Demo.config
           DemoMore.row_without_href Demo.signed_in
           (Demo.tag "a" [] []
              (Demo.columns (lit "0002233") (lit "BB-002-CC")
                 (lit "17.11.2022") (lit "K-7") [Text (lit "10.00 GEL")]
                 TEXT_PAID_ON_TIME))
           eq_refl eq_refl).
Defined.

(* ========================================================================= *)
(** * Children of the wrapper that are not placeholders *)

(** C4 refuted as it is worded: the first row of the listing has a link to
    a detail page whose wrapper has three children, a [div] with an image, a
    text and a [span]; its Protocol has one media, not three. *)
Lemma media_count_is_not_the_child_count :
  map (fun row => match Soup.find is_link row with
                  | Some _ => true
                  | None => false
                  end) Demo.the_rows = [true; false] /\
  media_wrapper (DemoMore.parser_of_mixed_wrapper (lit "detail-1"))
    = Ok DemoMore.mixed_wrapper /\
  length (children DemoMore.mixed_wrapper) = 3%nat /\
  match fst (get_protocols Demo.World Demo.transport
               DemoMore.parser_of_mixed_wrapper Demo.markup Demo.config
               Demo.signed_in) with
  | Ok ps => map (fun p => length (media p)) ps
  | Raise _ => []
  end = [1%nat; 0%nat].
Proof. vm_compute. repeat split; reflexivity. Qed.

(** C10 refuted as it is worded: the [span] is a child of the wrapper, has
    no image below it and no audio reference in its markup, and the media
    extraction does not raise: it passes the [span] over and returns the one
    image, and [get_protocols] returns its two Protocols. *)
Lemma child_that_is_no_div_is_passed_over :
  In DemoMore.span_child (children DemoMore.mixed_wrapper) /\
  Soup.find (named (lit "img")) DemoMore.span_child = None /\
  Regex.search_oggvideo (Demo.markup DemoMore.span_child) = None /\
  media_wrapper (DemoMore.parser_of_mixed_wrapper (lit "detail-1"))
    = Ok DemoMore.mixed_wrapper /\
  fst (_get_protocol_media Demo.World Demo.transport
         DemoMore.parser_of_mixed_wrapper Demo.markup Demo.config
         (lit "detail.php?id=1") Demo.signed_in)
    = Ok [mkMedia [Byte.x01] PNG] /\
  match fst (get_protocols Demo.World Demo.transport
               DemoMore.parser_of_mixed_wrapper Demo.markup Demo.config
               Demo.signed_in) with
  | Ok ps => length ps
  | Raise _ => 0%nat
  end = 2%nat.
Proof.
  split; [right; right; left; reflexivity|].
  vm_compute. repeat split; reflexivity.
Qed.

(** X7, the other end of the look-up: two cookies [PHPSESSID] in the jar
    after the login, and the negotiation raises. *)
Lemma authenticate_with_two_session_cookies :
  fst (_authenticate Demo.World DemoMore.doubling_transport Demo.oracle
         Demo.html_parser Demo.config DemoMore.signed_out)
    = Raise CookieConflictError.
Proof. vm_compute. reflexivity. Qed.
